(** * DLinear anomaly detector (paddlets/models/anomaly/dl/dlinear_ad.py)

    A shallow embedding of the moving-average smoother, the series
    decomposer, the DLinear predictor, the scorer and the fit / predict
    entry points of [DLinear_AD], followed by the properties the
    specification states about them.

    Conventions of the embedding:
    - float32 scalars are exact rationals ([Qc], canonical fractions, so
      that equality is Leibniz equality and [ring] / [field] apply);
      rounding, NaN and infinities are outside the model;
    - a tensor of rank 3 is its shape together with an index function; an
      operation never reads its argument outside the shape;
    - a Python exception is an [Err] result, threaded by a small error
      monad; *)

From Stdlib Require Import QArith Qcanon ZArith Lia.
From stdpp Require Import base numbers option list strings pretty gmap.

Local Open Scope Z_scope.
Local Open Scope nat_scope.

(** ** Exceptions and the error monad *)

Inductive exn : Type :=
  | ConfigurationError   (* named by the specification *)
  | ValueError           (* paddlets.logger.raise_if *)
  | InvalidArgument      (* raised by a Paddle operator on bad shapes or sizes *)
  | IndexError
  | KeyError
  | TypeError
  | AssertionError       (* an assert of the framework, on a parameter of size 0 *)
  | External (msg : string). (* raised by a collaborator outside this file *)

Inductive res (A : Type) : Type :=
  | Ok (a : A)
  | Err (e : exn).
Arguments Ok {A} a.
Arguments Err {A} e.

Global Instance res_ret : MRet res := fun _ a => Ok a.
Global Instance res_bind : MBind res := fun _ _ f m =>
  match m with
  | Ok a => f a
  | Err e => Err e
  end.

(** ** Paddle tensors and the operators the file calls *)

Module Paddle.

Definition Qc_of_nat (n : nat) : Qc := Qc_of_Z (Z.of_nat n).

(** [sumn n f] is f 0 + ... + f (n-1). *)
Fixpoint sumn (n : nat) (f : nat -> Qc) : Qc :=
  match n with
  | O => 0%Qc
  | S n' => (sumn n' f + f n')%Qc
  end.

Record T2 : Type := mkT2 {
  r0 : nat; r1 : nat;
  get2 : nat -> nat -> Qc
}.

Record T3 : Type := mkT3 {
  d0 : nat; d1 : nat; d2 : nat;
  get : nat -> nat -> nat -> Qc
}.

Definition shape (x : T3) : nat * nat * nat := (d0 x, d1 x, d2 x).
Definition shape2 (x : T2) : nat * nat := (r0 x, r1 x).

(** Materialise a tensor as nested lists (for running examples). *)
Definition to_list3 (x : T3) : list (list (list Qc)) :=
  map (fun i => map (fun j => map (fun k => get x i j k) (seq 0 (d2 x)))
                    (seq 0 (d1 x)))
      (seq 0 (d0 x)).

Definition to_list2 (x : T2) : list (list Qc) :=
  map (fun i => map (fun j => get2 x i j) (seq 0 (r1 x))) (seq 0 (r0 x)).

(** A [1, L, C] tensor from its rows. *)
Definition of_rows (c : nat) (rows : list (list Qc)) : T3 :=
  {| d0 := 1; d1 := length rows; d2 := c;
     get := fun _ j k => nth k (nth j rows []) 0%Qc |}.

(** [x[:, 0:1, :]] *)
Definition slice_first (x : T3) : T3 :=
  {| d0 := d0 x; d1 := Nat.min 1 (d1 x); d2 := d2 x;
     get := fun b j c => get x b j c |}.

(** [x[:, -1:, :]] *)
Definition slice_last (x : T3) : T3 :=
  {| d0 := d0 x; d1 := Nat.min 1 (d1 x); d2 := d2 x;
     get := fun b j c => get x b (d1 x - 1 + j) c |}.

(** [x.tile(repeat_times=[1, r, 1])]: [r] copies along axis 1.  Every
    repeat count has to be positive: a count of zero is rejected as a
    negative one is. *)
Definition tile1 (x : T3) (r : Z) : res T3 :=
  if bool_decide (r <= 0)%Z then Err InvalidArgument
  else Ok {| d0 := d0 x; d1 := Z.to_nat r * d1 x; d2 := d2 x;
             get := fun b j c => get x b (j mod d1 x) c |}.

(** Concatenation of two tensors along axis 1. *)
Definition cat1 (a b : T3) : res T3 :=
  if bool_decide (d0 a = d0 b /\ d2 a = d2 b) then
    Ok {| d0 := d0 a; d1 := d1 a + d1 b; d2 := d2 a;
          get := fun i j k =>
            if bool_decide (j < d1 a) then get a i j k
            else get b i (j - d1 a) k |}
  else Err InvalidArgument.

(** [paddle.concat(x=xs, axis=1)] *)
Definition concat1 (xs : list T3) : res T3 :=
  match xs with
  | [] => Err InvalidArgument
  | x :: rest => foldl (fun acc y => a ← acc; cat1 a y) (Ok x) rest
  end.

(** [x.transpose(perm=[0, 2, 1])] *)
Definition transpose021 (x : T3) : T3 :=
  {| d0 := d0 x; d1 := d2 x; d2 := d1 x;
     get := fun b i j => get x b j i |}.

(** [paddle.nn.AvgPool1D(kernel_size, stride, padding=0)].  The padding is
    the constant 0 in the source, so every window lies inside the input and
    the window sum is divided by [kernel_size]. *)
Record AvgPool1D : Type := mkAvgPool1D {
  pool_kernel_size : Z;
  pool_stride : Z
}.

(** The pooling of a [N, C, L] tensor over its last axis. *)
Definition AvgPool1D_forward (p : AvgPool1D) (x : T3) : res T3 :=
  if bool_decide (0 < pool_kernel_size p /\ 0 < pool_stride p)%Z then
    let k := Z.to_nat (pool_kernel_size p) in
    let s := Z.to_nat (pool_stride p) in
    if bool_decide (k <= d2 x)%nat then
      Ok {| d0 := d0 x; d1 := d1 x; d2 := ((d2 x - k) / s + 1)%nat;
            get := fun n c i =>
              (sumn k (fun j => get x n c (i * s + j)) / Qc_of_nat k)%Qc |}
    else Err InvalidArgument
  else Err InvalidArgument.

(** Broadcasting of one axis: equal sizes, or one of them is 1. *)
Definition bdim (m n : nat) : option nat :=
  if bool_decide (m = n) then Some m
  else if bool_decide (n = 1%nat) then Some m
  else if bool_decide (m = 1%nat) then Some n
  else None.

(** The index read in an operand of size [m] along an axis. *)
Definition bidx (m i : nat) : nat := if bool_decide (m = 1%nat) then 0%nat else i.

(** An elementwise binary operator on two rank-3 tensors. *)
Definition elementwise (f : Qc -> Qc -> Qc) (a b : T3) : res T3 :=
  match bdim (d0 a) (d0 b), bdim (d1 a) (d1 b), bdim (d2 a) (d2 b) with
  | Some n0, Some n1, Some n2 =>
      Ok {| d0 := n0; d1 := n1; d2 := n2;
            get := fun i j k =>
              f (get a (bidx (d0 a) i) (bidx (d1 a) j) (bidx (d2 a) k))
                (get b (bidx (d0 b) i) (bidx (d1 b) j) (bidx (d2 b) k)) |}
  | _, _, _ => Err InvalidArgument
  end.

Definition sub := elementwise Qcminus.
Definition add := elementwise Qcplus.

(** [paddle.square] *)
Definition square (x : T3) : T3 :=
  {| d0 := d0 x; d1 := d1 x; d2 := d2 x;
     get := fun i j k => (get x i j k * get x i j k)%Qc |}.

(** [paddle.nn.functional.mse_loss(input, label, reduction='none')] is
    [square(input - label)]. *)
Definition mse_loss_none (input label : T3) : res T3 :=
  d ← sub input label; Ok (square d).

(** [paddle.mean(x, axis=-1)] on a rank-3 tensor.  The mean over an empty
    axis is refused. *)
Definition mean_last (x : T3) : res T2 :=
  if bool_decide (0 < d2 x)%nat then
    Ok {| r0 := d0 x; r1 := d1 x;
          get2 := fun i j =>
            (sumn (d2 x) (fun k => get x i j k) / Qc_of_nat (d2 x))%Qc |}
  else Err InvalidArgument.

(** [paddle.zeros(shape=[a, b, c])] *)
Definition zeros (a b c : nat) : T3 :=
  {| d0 := a; d1 := b; d2 := c; get := fun _ _ _ => 0%Qc |}.

(** [x[:, i, :]] *)
Definition select1 (x : T3) (i : nat) : res T2 :=
  if bool_decide (i < d1 x)%nat then
    Ok {| r0 := d0 x; r1 := d2 x; get2 := fun b j => get x b i j |}
  else Err IndexError.

(** [x[:, i, :] = v] for a value [v] of the shape of the slice. *)
Definition set1 (x : T3) (i : nat) (v : T2) : res T3 :=
  if bool_decide (i < d1 x)%nat then
    if bool_decide (r0 v = d0 x /\ r1 v = d2 x) then
      Ok {| d0 := d0 x; d1 := d1 x; d2 := d2 x;
            get := fun b c j =>
              if bool_decide (c = i) then get2 v b j else get x b c j |}
    else Err InvalidArgument
  else Err IndexError.

(** [paddle.nn.Linear(in_features, out_features)]: weight of shape
    [in_features, out_features], bias of shape [out_features]. *)
Record Linear : Type := mkLinear {
  in_features : nat;
  out_features : nat;
  weight : nat -> nat -> Qc;
  bias : nat -> Qc
}.

(** The affine map of a layer on one series [v] of length [in_features]. *)
Definition affine (l : Linear) (v : nat -> Qc) (j : nat) : Qc :=
  (sumn (in_features l) (fun i => v i * weight l i j) + bias l j)%Qc.

Definition Linear_forward3 (l : Linear) (x : T3) : res T3 :=
  if bool_decide (d2 x = in_features l) then
    Ok {| d0 := d0 x; d1 := d1 x; d2 := out_features l;
          get := fun b c j => affine l (fun i => get x b c i) j |}
  else Err InvalidArgument.

Definition Linear_forward2 (l : Linear) (x : T2) : res T2 :=
  if bool_decide (r1 x = in_features l) then
    Ok {| r0 := r0 x; r1 := out_features l;
          get2 := fun b j => affine l (fun i => get2 x b i) j |}
  else Err InvalidArgument.

End Paddle.

(** ** class moving_avg *)

Module moving_avg.
Import Paddle.

Record t : Type := mk {
  kernel_size : Z;
  avg : AvgPool1D
}.

(** [__init__(self, kernel_size, stride)]: stores the size and builds the
    pooling layer; no argument is inspected. *)
Definition __init__ (kernel_size stride : Z) : res t :=
  Ok {| kernel_size := kernel_size;
        avg := {| pool_kernel_size := kernel_size; pool_stride := stride |} |}.

(** Lines 36-40 of [forward]: the padded sequence. *)
Definition pad (self : t) (x : T3) : res T3 :=
  front ← tile1 (slice_first x) ((kernel_size self - 1) / 2)%Z;
  end_ ← tile1 (slice_last x) ((kernel_size self - 1) / 2)%Z;
  concat1 [front; x; end_].

Definition forward (self : t) (x : T3) : res T3 :=
  x ← pad self x;
  x ← AvgPool1D_forward (avg self) (transpose021 x);
  Ok (transpose021 x).

End moving_avg.

(** ** class series_decomp *)

Module series_decomp.
Import Paddle.

Record t : Type := mk {
  moving_avg : moving_avg.t
}.

Definition __init__ (kernel_size : Z) : res t :=
  ma ← moving_avg.__init__ kernel_size 1%Z;
  Ok {| moving_avg := ma |}.

Definition forward (self : t) (x : T3) : res (T3 * T3) :=
  moving_mean ← moving_avg.forward (moving_avg self) x;
  res ← sub x moving_mean;
  Ok (res, moving_mean).

End series_decomp.

(** ** class _DLinearModule *)

Module _DLinearModule.
Import Paddle.

(** [Linear_Seasonal] and [Linear_Trend] hold one layer, or a
    [paddle.nn.LayerList] of one layer per channel. *)
Inductive layers : Type :=
  | Single (l : Linear)
  | LayerList (ls : list Linear).

Record t : Type := mk {
  seq_len : nat;
  pred_len : nat;
  decompsition : series_decomp.t;
  individual : bool;
  channels : nat;
  Linear_Seasonal : layers;
  Linear_Trend : layers
}.

(** The values a layer is created with: the weight and the bias that the
    initializer of [paddle.nn.Linear] draws.  The constructor takes them as
    an argument, one pair per layer. *)
Definition values : Type := (nat -> nat -> Qc) * (nat -> Qc).

Definition new_Linear (in_features out_features : nat) (v : values) : Linear :=
  {| in_features := in_features; out_features := out_features;
     weight := fst v; bias := snd v |}.

(** [paddle.nn.Linear(in_features=..., out_features=...)]: creating a
    parameter with a dimension of size 0 trips an assert. *)
Definition paddle_nn_Linear (in_features out_features : nat) (v : values)
    : res Linear :=
  if bool_decide (0 < in_features /\ 0 < out_features) then
    Ok (new_Linear in_features out_features v)
  else Err AssertionError.

(** [layer[i]] *)
Definition item (ly : layers) (i : nat) : res Linear :=
  match ly with
  | LayerList ls =>
      match ls !! i with
      | Some l => Ok l
      | None => Err IndexError
      end
  | Single _ => Err TypeError
  end.

(** [layer(x)] *)
Definition call (ly : layers) (x : T3) : res T3 :=
  match ly with
  | Single l => Linear_forward3 l x
  | LayerList _ => Err TypeError
  end.

(** The layer that serves channel [c]: the single shared layer, or the
    c-th entry of the list. *)
Definition layer_of (ly : layers) (c : nat) : option Linear :=
  match ly with
  | Single l => Some l
  | LayerList ls => ls !! c
  end.

(** One turn of the loop of lines 120-124. *)
Definition channel_step (self : t) (seasonal_init trend_init : T3)
    (acc : T3 * T3) (i : nat) : res (T3 * T3) :=
  let '(seasonal_output, trend_output) := acc in
  ls ← item (Linear_Seasonal self) i;
  xs ← select1 seasonal_init i;
  ys ← Linear_forward2 ls xs;
  seasonal_output ← set1 seasonal_output i ys;
  lt ← item (Linear_Trend self) i;
  xt ← select1 trend_init i;
  yt ← Linear_forward2 lt xt;
  trend_output ← set1 trend_output i yt;
  Ok (seasonal_output, trend_output).

(** [for i in range(n)] with the body in the error monad. *)
Fixpoint for_range {A} (body : A -> nat -> res A) (acc : A) (range : list nat)
    : res A :=
  match range with
  | [] => Ok acc
  | i :: range' => acc' ← body acc i; for_range body acc' range'
  end.

(** A batch as the network receives it. *)
Record batch : Type := mkBatch {
  observed_cov_numeric : T3
}.

(** [forward(self, X)]; the cast to float32 is the identity on the model's
    scalars. *)
Definition forward (self : t) (X : batch) : res (T3 * T3) :=
  let x := observed_cov_numeric X in
  '(seasonal_init, trend_init) ← series_decomp.forward (decompsition self) x;
  let seasonal_init := transpose021 seasonal_init in
  let trend_init := transpose021 trend_init in
  '(seasonal_output, trend_output) ←
    (if individual self then
       let seasonal_output :=
         zeros (d0 seasonal_init) (d1 seasonal_init) (pred_len self) in
       let trend_output :=
         zeros (d0 trend_init) (d1 trend_init) (pred_len self) in
       for_range (channel_step self seasonal_init trend_init)
                 (seasonal_output, trend_output) (seq 0 (channels self))
     else
       seasonal_output ← call (Linear_Seasonal self) seasonal_init;
       trend_output ← call (Linear_Trend self) trend_init;
       Ok (seasonal_output, trend_output));
  x ← add seasonal_output trend_output;
  Ok (transpose021 x, observed_cov_numeric X).

(** *** init_weight

    [init_weight] reads and writes the parameters of the module through
    their state dictionary ([state_dict] / [set_dict]): a mapping from the
    parameter name to the tensor. *)

Record Param : Type := mkParam {
  p_shape : list nat;
  p_values : list Qc
}.

Inductive log_entry : Type :=
  | Warning_not_in_pretrained (k : string)
  | Warning_skip_shape (k : string) (pretrained actual : list nat)
  | Info_loaded (num_params_loaded total : nat).

(** The test of lines 139-147: the name [k] is in the pretrained mapping
    with the shape the model has for it. *)
Definition can_load (para_state_dict model : gmap string Param) (k : string)
    : bool :=
  match para_state_dict !! k, model !! k with
  | Some p, Some q => bool_decide (p_shape p = p_shape q)
  | _, _ => false
  end.

(** The state of the loop of lines 138-149. *)
Record load_state : Type := mkLoad {
  model_state_dict : gmap string Param;
  num_params_loaded : nat;
  log : list log_entry
}.

(** The body of the loop for the key [k]. *)
Definition load_key (para_state_dict : gmap string Param) (st : load_state)
    (k : string) : res load_state :=
  match para_state_dict !! k with
  | None =>
      Ok {| model_state_dict := model_state_dict st;
            num_params_loaded := num_params_loaded st;
            log := log st ++ [Warning_not_in_pretrained k] |}
  | Some p =>
      match model_state_dict st !! k with
      | None => Err KeyError
      | Some q =>
          if bool_decide (p_shape p <> p_shape q) then
            Ok {| model_state_dict := model_state_dict st;
                  num_params_loaded := num_params_loaded st;
                  log := log st ++ [Warning_skip_shape k (p_shape p) (p_shape q)] |}
          else
            Ok {| model_state_dict := <[k := p]> (model_state_dict st);
                  num_params_loaded := num_params_loaded st + 1;
                  log := log st |}
      end
  end.

Fixpoint load_keys (para_state_dict : gmap string Param) (st : load_state)
    (keys : list string) : res load_state :=
  match keys with
  | [] => Ok st
  | k :: keys' =>
      st' ← load_key para_state_dict st k; load_keys para_state_dict st' keys'
  end.

(** [init_weight(self)].  [pretrain] is the path given to the constructor,
    [paddle_load] reads a parameter file, [th_linear_fill] stands for the
    fill of every Linear sublayer done when no path is given, and
    [state_dict] is the state dictionary of the module on entry.  The
    result is the dictionary installed in the module and the log. *)
Definition init_weight (pretrain : option string)
    (paddle_load : string -> res (gmap string Param))
    (th_linear_fill : gmap string Param -> gmap string Param)
    (state_dict : gmap string Param)
    : res (gmap string Param * list log_entry) :=
  match pretrain with
  | Some path =>
      if bool_decide (path <> EmptyString) then
        para_state_dict ← paddle_load path;
        let keys := (map_to_list state_dict).*1 in
        st ← load_keys para_state_dict
               {| model_state_dict := state_dict; num_params_loaded := 0;
                  log := [] |} keys;
        Ok (model_state_dict st,
            log st ++ [Info_loaded (num_params_loaded st)
                                   (size (model_state_dict st))])
      else Ok (th_linear_fill state_dict, [])
  | None => Ok (th_linear_fill state_dict, [])
  end.

(** *** state_dict and set_dict

    The two methods of [paddle.nn.Layer] that [init_weight] calls.  Every
    Linear sublayer contributes its weight, of shape
    [in_features, out_features] and stored row by row, and its bias, of
    shape [out_features], under the name of the attribute that holds the
    layer, followed by the position of the layer inside a LayerList. *)

Definition weight_param (l : Linear) : Param :=
  {| p_shape := [in_features l; out_features l];
     p_values :=
       flat_map (fun i => map (weight l i) (seq 0 (out_features l)))
                (seq 0 (in_features l)) |}.

Definition bias_param (l : Linear) : Param :=
  {| p_shape := [out_features l];
     p_values := map (bias l) (seq 0 (out_features l)) |}.

(** The name of the layer that serves channel [i]. *)
Definition sublayer_name (prefix : string) (ly : layers) (i : nat) : string :=
  match ly with
  | Single _ => prefix
  | LayerList _ => prefix +:+ "." +:+ pretty i
  end.

Definition sublayers (prefix : string) (ly : layers) : list (string * Linear) :=
  match ly with
  | Single l => [(sublayer_name prefix ly 0, l)]
  | LayerList ls => imap (fun i l => (sublayer_name prefix ly i, l)) ls
  end.

Definition state_dict (self : t) : gmap string Param :=
  list_to_map
    (flat_map (fun nl => [(nl.1 +:+ ".weight", weight_param nl.2);
                          (nl.1 +:+ ".bias", bias_param nl.2)])
       (sublayers "Linear_Seasonal" (Linear_Seasonal self)
        ++ sublayers "Linear_Trend" (Linear_Trend self))).

(** The tensor a parameter holds after [set_dict]: the entry of its name
    when there is one of its shape, and its own value otherwise. *)
Definition set_param (d : gmap string Param) (name : string) (own : Param)
    : Param :=
  match d !! name with
  | Some p => if bool_decide (p_shape p = p_shape own) then p else own
  | None => own
  end.

Definition set_Linear (d : gmap string Param) (name : string) (l : Linear)
    : Linear :=
  let w := set_param d (name +:+ ".weight") (weight_param l) in
  let b := set_param d (name +:+ ".bias") (bias_param l) in
  new_Linear (in_features l) (out_features l)
    (fun i j => nth (i * out_features l + j) (p_values w) 0%Qc,
     fun j => nth j (p_values b) 0%Qc).

Definition set_layers (d : gmap string Param) (prefix : string) (ly : layers)
    : layers :=
  match ly with
  | Single l => Single (set_Linear d (sublayer_name prefix ly 0) l)
  | LayerList ls =>
      LayerList (imap (fun i l => set_Linear d (sublayer_name prefix ly i) l) ls)
  end.

Definition set_dict (self : t) (d : gmap string Param) : t :=
  {| seq_len := seq_len self; pred_len := pred_len self;
     decompsition := decompsition self; individual := individual self;
     channels := channels self;
     Linear_Seasonal := set_layers d "Linear_Seasonal" (Linear_Seasonal self);
     Linear_Trend := set_layers d "Linear_Trend" (Linear_Trend self) |}.

(** *** __init__

    [__init__(self, c_in, seq_len, pred_len, individual, pretrain)].
    [seasonal i] and [trend i] are the values the i-th layer of each kind
    is created with (index 0 for the single shared layer); [paddle_load]
    and [th_linear_fill] are the two calls of [init_weight] into the
    framework.  [self.pretrain] is read by [init_weight] alone, which
    receives it as its argument; the dictionary [init_weight] leaves is
    installed in the module. *)
Definition __init__ (c_in seq_len pred_len : nat) (individual : bool)
    (pretrain : option string)
    (paddle_load : string -> res (gmap string Param))
    (th_linear_fill : gmap string Param -> gmap string Param)
    (seasonal trend : nat -> values) : res t :=
  let self_seq_len := seq_len in
  let self_pred_len := seq_len in
  let kernel_size := 25%Z in
  decompsition ← series_decomp.__init__ kernel_size;
  let self_channels := c_in in
  '(Linear_Seasonal, Linear_Trend) ←
    (if individual then
       '(Linear_Seasonal, Linear_Trend) ←
         for_range
           (fun (acc : list Linear * list Linear) i =>
              ls ← paddle_nn_Linear self_seq_len self_pred_len (seasonal i);
              lt ← paddle_nn_Linear self_seq_len self_pred_len (trend i);
              Ok (acc.1 ++ [ls], acc.2 ++ [lt]))
           ([], []) (seq 0 self_channels);
       Ok (LayerList Linear_Seasonal, LayerList Linear_Trend)
     else
       ls ← paddle_nn_Linear self_seq_len self_pred_len (seasonal 0);
       lt ← paddle_nn_Linear self_seq_len self_pred_len (trend 0);
       Ok (Single ls, Single lt));
  let self :=
    {| seq_len := self_seq_len; pred_len := self_pred_len;
       decompsition := decompsition; individual := individual;
       channels := self_channels;
       Linear_Seasonal := Linear_Seasonal; Linear_Trend := Linear_Trend |} in
  '(model_state_dict, _) ←
    init_weight pretrain paddle_load th_linear_fill (state_dict self);
  Ok (set_dict self model_state_dict).

End _DLinearModule.

(** ** class DLinear_AD *)

Module DLinear_AD.
Import Paddle.

(** A dataset, seen through [get_observed_cov().data]: one row per
    timestep, one column per observed channel. *)
Record TSDataset : Type := mkTSDataset {
  observed_cov : T2
}.

Definition DataLoader : Type := list _DLinearModule.batch.

(** The callable stored in [_criterion]. *)
Inductive criterion : Type := F_mse_loss.

Record t : Type := mk {
  c_in : nat;
  individual : bool;
  _anomaly_ratio : Qc;
  _criterion : criterion;
  _in_chunk_len : nat;
  _threshold : option Qc;
  _threshold_coeff : Qc;
  _threshold_fn : option _DLinearModule.t -> DataLoader -> option DataLoader ->
                  Qc -> criterion -> res Qc;
  _pred_adjust : bool;
  _pred_adjust_fn : list Z -> list Qc -> Qc -> list Z;
  _fit_params : option nat;              (* the entry "observed_dim" *)
  _network : option _DLinearModule.t;
  use_amp : bool;
  amp_level : string
}.

Definition set_use_amp (self : t) (v : bool) : t :=
  mk (c_in self) (individual self) (_anomaly_ratio self) (_criterion self)
     (_in_chunk_len self) (_threshold self) (_threshold_coeff self)
     (_threshold_fn self) (_pred_adjust self) (_pred_adjust_fn self)
     (_fit_params self) (_network self) v (amp_level self).

Definition set_amp_level (self : t) (v : string) : t :=
  mk (c_in self) (individual self) (_anomaly_ratio self) (_criterion self)
     (_in_chunk_len self) (_threshold self) (_threshold_coeff self)
     (_threshold_fn self) (_pred_adjust self) (_pred_adjust_fn self)
     (_fit_params self) (_network self) (use_amp self) v.

Definition set_fit_params (self : t) (v : option nat) : t :=
  mk (c_in self) (individual self) (_anomaly_ratio self) (_criterion self)
     (_in_chunk_len self) (_threshold self) (_threshold_coeff self)
     (_threshold_fn self) (_pred_adjust self) (_pred_adjust_fn self)
     v (_network self) (use_amp self) (amp_level self).

Definition set_threshold (self : t) (v : option Qc) : t :=
  mk (c_in self) (individual self) (_anomaly_ratio self) (_criterion self)
     (_in_chunk_len self) v (_threshold_coeff self)
     (_threshold_fn self) (_pred_adjust self) (_pred_adjust_fn self)
     (_fit_params self) (_network self) (use_amp self) (amp_level self).

Definition set_network (self : t) (v : option _DLinearModule.t) : t :=
  mk (c_in self) (individual self) (_anomaly_ratio self) (_criterion self)
     (_in_chunk_len self) (_threshold self) (_threshold_coeff self)
     (_threshold_fn self) (_pred_adjust self) (_pred_adjust_fn self)
     (_fit_params self) v (use_amp self) (amp_level self).

(** The methods [DLinear_AD] inherits from [AnomalyBaseModel]; their code
    is not part of this file. *)
Class AnomalyBaseModel : Type := {
  _check_tsdataset : TSDataset -> res unit;
  (* the last argument is [shuffle]; [None] when the call omits it *)
  _init_fit_dataloaders :
    t -> TSDataset -> option TSDataset -> option bool ->
    res (option DataLoader * option DataLoader);
  _fit : t -> option DataLoader -> option DataLoader -> bool -> res t;
  _init_predict_dataloader : t -> TSDataset -> Z * Z -> res DataLoader;
  _get_anomaly_score : t -> DataLoader -> res (list (list Qc))
}.

(** [__init__]: the fields set on lines 219-222, and the arguments handed
    to the base constructor under the names this file later reads. *)
Definition __init__ (in_chunk_len c_in : nat) (individual : bool)
    (anomaly_ratio : Qc) (threshold : option Qc) (threshold_coeff : Qc)
    (threshold_fn : option _DLinearModule.t -> DataLoader ->
                    option DataLoader -> Qc -> criterion -> res Qc)
    (pred_adjust : bool) (pred_adjust_fn : list Z -> list Qc -> Qc -> list Z)
    : t :=
  {| c_in := c_in; individual := individual;
     _anomaly_ratio := anomaly_ratio; _criterion := F_mse_loss;
     _in_chunk_len := in_chunk_len; _threshold := threshold;
     _threshold_coeff := threshold_coeff; _threshold_fn := threshold_fn;
     _pred_adjust := pred_adjust; _pred_adjust_fn := pred_adjust_fn;
     _fit_params := None; _network := None;
     use_amp := false; amp_level := EmptyString |}.

Definition _update_fit_params (self : t) (train_tsdataset : TSDataset)
    (valid_tsdataset : option TSDataset) : option nat :=
  Some (r1 (observed_cov train_tsdataset)).

Definition _init_network (self : t)
    (paddle_load : string -> res (gmap string _DLinearModule.Param))
    (th_linear_fill : gmap string _DLinearModule.Param ->
                      gmap string _DLinearModule.Param)
    (seasonal trend : nat -> _DLinearModule.values) : res _DLinearModule.t :=
  match _fit_params self with
  | None => Err TypeError   (* [None["observed_dim"]] *)
  | Some observed_dim =>
      _DLinearModule.__init__ observed_dim (_in_chunk_len self)
        (_in_chunk_len self) (individual self) None paddle_load th_linear_fill
        seasonal trend
  end.

(** What [fit] does, in order, as far as the threshold is concerned. *)
Inductive event : Type :=
  | Train        (* the training loop [_fit] ran *)
  | Calibrate.   (* [_threshold_fn] was called *)

(** [paddle.amp.auto_cast(...)] as a context: it changes the precision of
    the operators run inside it, which exact scalars do not see. *)
Definition auto_cast {A} (level : string) (body : A) : A := body.

(** [_get_threshold]; returns the value, the updated model and the calls
    made. *)
Definition _get_threshold (self : t) (train_dataloader : option DataLoader)
    (val_dataloader : option DataLoader) : res (Qc * t * list event) :=
  match train_dataloader with
  | None => Err ValueError
  | Some train =>
      th ← (if use_amp self then
              auto_cast (amp_level self)
                (_threshold_fn self (_network self) train val_dataloader
                   (_anomaly_ratio self) (_criterion self))
            else
              _threshold_fn self (_network self) train val_dataloader
                (_anomaly_ratio self) (_criterion self));
      let self := set_threshold self (Some th) in
      Ok (th, self, [Calibrate])
  end.

Section Methods.
Context `{Base : AnomalyBaseModel}.

Definition fit (self : t) (train_tsdataset : TSDataset)
    (valid_tsdataset : option TSDataset) (to_static_train use_amp : bool)
    (amp_level : string) : res (t * list event) :=
  let self := set_use_amp self use_amp in
  let self := set_amp_level self amp_level in
  _ ← _check_tsdataset train_tsdataset;
  _ ← match valid_tsdataset with
      | Some v => _check_tsdataset v
      | None => Ok ()
      end;
  let self :=
    set_fit_params self
      (_update_fit_params self train_tsdataset valid_tsdataset) in
  '(train_dataloader, valid_dataloaders) ←
    _init_fit_dataloaders self train_tsdataset valid_tsdataset None;
  self ← _fit self train_dataloader valid_dataloaders to_static_train;
  match _threshold self with
  | None =>
      '(dataloader, valid_dataloaders) ←
        _init_fit_dataloaders self train_tsdataset valid_tsdataset
          (Some false);
      '(th, self, calls) ← _get_threshold self dataloader valid_dataloaders;
      Ok (set_threshold self (Some th), [Train] ++ calls)
  | Some _ => Ok (self, [Train])
  end.

(** The labels [predict] computes; the decorator [to_tsdataset] then
    attaches them to the time index of the dataset. *)
Definition predict (self : t) (tsdataset : TSDataset) : res (list Z) :=
  let boundary := (Z.of_nat (r0 (observed_cov tsdataset)) - 1)%Z in
  dataloader ← _init_predict_dataloader self tsdataset (boundary, boundary);
  anomaly_score ← _get_anomaly_score self dataloader;
  anomaly_score ←
    (match anomaly_score with
     | [] => Err ValueError   (* np.concatenate of no array *)
     | _ => Ok (concat anomaly_score)
     end);
  match _threshold self with
  | None => Err TypeError
  | Some threshold =>
      let anomaly_label :=
        map (fun s => (Z.b2z (bool_decide (threshold <= s)%Qc) + 0)%Z)
            anomaly_score in
      (* adjust pred *)
      Ok anomaly_label
  end.

End Methods.

Definition _get_loss (y_pred y_true : T3) : res T2 :=
  let anomaly_criterion := mse_loss_none in
  loss ← anomaly_criterion y_true y_pred;
  mean_last loss.

End DLinear_AD.

(** ** Closed forms

    The values the operations above compute on well-shaped inputs, written
    out once; the properties below show that the code returns them. *)

Module Closed.
Import Paddle.

(** The padded sequence of [moving_avg.pad] for the kernel size [k]. *)
Definition padded (k : Z) (x : T3) : T3 :=
  let half := Z.to_nat ((k - 1) / 2) in
  {| d0 := d0 x; d1 := half + d1 x + half; d2 := d2 x;
     get := fun b j c =>
       if bool_decide (j < half + d1 x) then
         if bool_decide (j < half) then get x b (j mod 1) c
         else get x b (j - half) c
       else get x b (d1 x - 1 + (j - (half + d1 x)) mod 1) c |}.

(** The output of [moving_avg.forward] for the kernel size [k], stride 1. *)
Definition smoothed (k : Z) (x : T3) : T3 :=
  {| d0 := d0 x; d1 := d1 x; d2 := d2 x;
     get := fun b l c =>
       (sumn (Z.to_nat k) (fun j => get (padded k x) b (l * 1 + j) c)
        / Qc_of_nat (Z.to_nat k))%Qc |}.

(** The module of the given configuration whose layers hold the values
    [seasonal] and [trend]: what [_DLinearModule.__init__] creates before
    it calls [init_weight], and, for other values, what it returns. *)
Definition built (c_in seq_len : nat) (individual : bool)
    (seasonal trend : nat -> _DLinearModule.values) : _DLinearModule.t :=
  let layer v i := _DLinearModule.new_Linear seq_len seq_len (v i) in
  {| _DLinearModule.seq_len := seq_len;
     _DLinearModule.pred_len := seq_len;
     _DLinearModule.decompsition :=
       series_decomp.mk (moving_avg.mk 25 (mkAvgPool1D 25 1));
     _DLinearModule.individual := individual;
     _DLinearModule.channels := c_in;
     _DLinearModule.Linear_Seasonal :=
       if individual
       then _DLinearModule.LayerList (map (layer seasonal) (seq 0 c_in))
       else _DLinearModule.Single (layer seasonal 0);
     _DLinearModule.Linear_Trend :=
       if individual
       then _DLinearModule.LayerList (map (layer trend) (seq 0 c_in))
       else _DLinearModule.Single (layer trend 0) |}.

(** The parameter file named by [pretrain], if one is named, can be read. *)
Definition readable (pretrain : option string)
    (paddle_load : string -> res (gmap string _DLinearModule.Param)) : Prop :=
  forall path, pretrain = Some path -> path <> EmptyString ->
    exists para, paddle_load path = Ok para.

End Closed.

(** ** Concrete data

    Small tensors, a module with fixed weights and one implementation of
    the inherited methods, on which the entry points are run. *)

Module Example.
Import Paddle.

Definition q (n : Z) : Qc := Qc_of_Z n.

(** One channel, three timesteps: 1, 2, 4. *)
Definition ramp : T3 := of_rows 1 [[q 1]; [q 2]; [q 4]].

(** Two channels, three timesteps. *)
Definition pair : T3 := of_rows 2 [[q 1; q 6]; [q 2; q 0]; [q 4; q 3]].

Definition y_pred : T3 := of_rows 2 [[q 1; q 2]; [q 3; q 4]].
Definition y_true : T3 := of_rows 2 [[q 0; q 0]; [q 3; q 2]].

(** Layer values: the identity map scaled by [a], with bias [b]. *)
Definition scaled (a b : Z) : _DLinearModule.values :=
  (fun i j => if bool_decide (i = j) then q a else q 0, fun _ => q b).

Definition zero_values : nat -> _DLinearModule.values := fun _ => scaled 0 0.

(** Channel i gets the scale i + 1 (seasonal) and the bias i (trend). *)
Definition sv : nat -> _DLinearModule.values := fun i => scaled (Z.of_nat i + 1) 0.
Definition tv : nat -> _DLinearModule.values := fun i => scaled 1 (Z.of_nat i).

(** As [sv], except for channel 1. *)
Definition sv' : nat -> _DLinearModule.values :=
  fun i => if bool_decide (i = 1) then scaled 7 7 else sv i.

(** A state dictionary and a pretrained mapping that lacks the bias. *)
Definition weight_init : _DLinearModule.Param :=
  _DLinearModule.mkParam [3; 3] (replicate 9 (q 0)).
Definition bias_init : _DLinearModule.Param :=
  _DLinearModule.mkParam [3] (replicate 3 (q 0)).
Definition weight_pre : _DLinearModule.Param :=
  _DLinearModule.mkParam [3; 3] (replicate 9 (q 1)).
Definition bias_pre : _DLinearModule.Param :=
  _DLinearModule.mkParam [3] (replicate 3 (q 1)).

Definition state_dict : gmap string _DLinearModule.Param :=
  <["Linear_Seasonal.weight" := weight_init]>
    (<["Linear_Seasonal.bias" := bias_init]> ∅).
Definition full : gmap string _DLinearModule.Param :=
  <["Linear_Seasonal.weight" := weight_pre]>
    (<["Linear_Seasonal.bias" := bias_pre]> ∅).
Definition pretrained : gmap string _DLinearModule.Param :=
  delete "Linear_Seasonal.bias" full.

(** A dataset of three timesteps and one channel: 3, 0, 3. *)
Definition series : DLinear_AD.TSDataset :=
  DLinear_AD.mkTSDataset
    {| r0 := 3; r1 := 1;
       get2 := fun j _ => nth j [q 3; q 0; q 3] (q 0) |}.

(** The framework calls of the constructor: no parameter file exists, and
    the fill keeps the values the layers were created with. *)
Definition no_file : string -> res (gmap string _DLinearModule.Param) :=
  fun _ => Err (External "no such file").
Definition keep : gmap string _DLinearModule.Param ->
                  gmap string _DLinearModule.Param := fun d => d.

(** The network [_init_network] returns for one channel and windows of
    three timesteps: the zero layers, with their own parameters installed. *)
Definition network : _DLinearModule.t :=
  _DLinearModule.set_dict
    (Closed.built 1 3 false zero_values zero_values)
    (_DLinearModule.state_dict (Closed.built 1 3 false zero_values zero_values)).

(** The whole dataset as one batch of one window. *)
Definition window (ds : DLinear_AD.TSDataset) : _DLinearModule.batch :=
  _DLinearModule.mkBatch
    {| d0 := 1; d1 := r0 (DLinear_AD.observed_cov ds);
       d2 := r1 (DLinear_AD.observed_cov ds);
       get := fun _ j k => get2 (DLinear_AD.observed_cov ds) j k |}.

(** The scores of the batches of a loader: forward pass, then [_get_loss]. *)
Fixpoint score_batches (net : _DLinearModule.t) (dl : DLinear_AD.DataLoader)
    : res (list (list Qc)) :=
  match dl with
  | [] => Ok []
  | X :: rest =>
      '(y_pred, y_true) ← _DLinearModule.forward net X;
      loss ← DLinear_AD._get_loss y_pred y_true;
      more ← score_batches net rest;
      Ok (concat (to_list2 loss) :: more)
  end.

(** One implementation of the inherited methods: no validation, one batch
    per dataset, a training loop that builds the network with zero weights
    and leaves them as they are. *)
Definition base : DLinear_AD.AnomalyBaseModel :=
  {| DLinear_AD._check_tsdataset := fun _ => Ok ();
     DLinear_AD._init_fit_dataloaders := fun _ train valid _ =>
       Ok (Some [window train], option_map (fun v => [window v]) valid);
     DLinear_AD._fit := fun self _ _ _ =>
       net ← DLinear_AD._init_network self no_file keep zero_values zero_values;
       Ok (DLinear_AD.set_network self (Some net));
     DLinear_AD._init_predict_dataloader := fun _ ds _ => Ok [window ds];
     DLinear_AD._get_anomaly_score := fun self dl =>
       match DLinear_AD._network self with
       | None => Err TypeError   (* [None] is not callable *)
       | Some net => score_batches net dl
       end |}.

(** A calibration function that returns 5, and an adjustment policy that
    closes a gap of one normal point between two anomalous points. *)
Definition threshold_five :
    option _DLinearModule.t -> DLinear_AD.DataLoader ->
    option DLinear_AD.DataLoader -> Qc -> DLinear_AD.criterion -> res Qc :=
  fun _ _ _ _ _ => Ok (q 5).

Fixpoint close_gaps (prev : Z) (labels : list Z) : list Z :=
  match labels with
  | [] => []
  | x :: rest =>
      (if bool_decide (prev = 1%Z /\ head rest = Some 1%Z) then 1%Z else x)
      :: close_gaps x rest
  end.

Definition merge_adjacent (labels : list Z) (scores : list Qc) (threshold : Qc)
    : list Z :=
  close_gaps 0%Z labels.

(** A detector without a threshold, and one constructed with threshold 1;
    both with label adjustment enabled. *)
Definition uncalibrated : DLinear_AD.t :=
  DLinear_AD.__init__ 3 1 false (q 1) None (q 1) threshold_five true
    merge_adjacent.
Definition with_threshold : DLinear_AD.t :=
  DLinear_AD.__init__ 3 1 false (q 1) (Some (q 1)) (q 1) threshold_five true
    merge_adjacent.

(** [with_threshold] once [fit] has run on [series]. *)
Definition trained : DLinear_AD.t :=
  DLinear_AD.set_network
    (DLinear_AD.set_fit_params
       (DLinear_AD.set_amp_level with_threshold "O2") (Some 1))
    (Some network).

(** [uncalibrated] once [fit] has run on [series]. *)
Definition calibrated : DLinear_AD.t :=
  DLinear_AD.set_threshold
    (DLinear_AD.set_network
       (DLinear_AD.set_fit_params
          (DLinear_AD.set_amp_level uncalibrated "O2") (Some 1))
       (Some network))
    (Some (q 5)).

(** A constant sequence, an empty window, a second window that agrees
    with [pair] on channel 0, and the combination 2 * ramp + flat. *)
Definition flat : T3 := of_rows 1 [[q 5]; [q 5]; [q 5]].
Definition no_steps : T3 := of_rows 1 [].
Definition pair_other : T3 := of_rows 2 [[q 1; q 9]; [q 2; q 9]; [q 4; q 9]].
Definition combined : T3 := of_rows 1 [[q 7]; [q 9]; [q 13]].

(** [trained] without its threshold, and the scores the inherited scorer
    gives for [series]. *)
Definition unthresholded : DLinear_AD.t := DLinear_AD.set_threshold trained None.

Definition series_scores : list (list Qc) :=
  match DLinear_AD._get_anomaly_score (AnomalyBaseModel := base) trained
          [window series] with
  | Ok chunks => chunks
  | Err _ => []
  end.

(** As [base], except that the loaders built with shuffle=False contain no
    train loader. *)
Definition base_without_calibration_loader : DLinear_AD.AnomalyBaseModel :=
  {| DLinear_AD._check_tsdataset := fun _ => Ok ();
     DLinear_AD._init_fit_dataloaders := fun _ train valid shuffle =>
       match shuffle with
       | Some false => Ok (None, None)
       | _ => Ok (Some [window train], None)
       end;
     DLinear_AD._fit := fun self _ _ _ =>
       net ← DLinear_AD._init_network self no_file keep zero_values zero_values;
       Ok (DLinear_AD.set_network self (Some net));
     DLinear_AD._init_predict_dataloader := fun _ ds _ => Ok [window ds];
     DLinear_AD._get_anomaly_score := fun self dl =>
       match DLinear_AD._network self with
       | None => Err TypeError   (* [None] is not callable *)
       | Some net => score_batches net dl
       end |}.

(** [uncalibrated] after the training loop of a fit, before calibration. *)
Definition after_training : DLinear_AD.t :=
  DLinear_AD.set_network
    (DLinear_AD.set_fit_params
       (DLinear_AD.set_amp_level uncalibrated "O2") (Some 1))
    (Some network).

End Example.

(** * Properties *)

Import Paddle.
Import Closed.

(** ** Sums and small arithmetic facts *)

Lemma sumn_ext (n : nat) (f g : nat -> Qc) :
  (forall i, i < n -> f i = g i) -> sumn n f = sumn n g.
Proof.
  induction n as [|n IH]; intros H; simpl; [reflexivity|].
  rewrite IH by (intros i Hi; apply H; lia).
  rewrite (H n) by lia. reflexivity.
Qed.

Lemma odd_half (k : Z) : Z.odd k = true -> (k = 2 * ((k - 1) / 2) + 1)%Z.
Proof.
  intros Hodd. pose proof (Zmod_odd k) as Hm. rewrite Hodd in Hm.
  pose proof (Z.div_mod k 2 ltac:(lia)) as Hk.
  assert (((k - 1) / 2) = k / 2)%Z as ->; [|lia].
  symmetry. apply (Z.div_unique (k - 1) 2 (k / 2) 0); lia.
Qed.

(** ** The moving-average smoother *)

Section Smoother.
Variable k : Z.
Variable x : T3.
Hypothesis k_big : (3 <= k)%Z.
Hypothesis k_odd : Z.odd k = true.
Hypothesis x_len : 1 <= d1 x.

Let half := Z.to_nat ((k - 1) / 2).
Let self := moving_avg.mk k (mkAvgPool1D k 1).

(** Both repeat counts are at least 1 from the kernel size 3 on. *)
Lemma pad_eq : moving_avg.pad self x = Ok (padded k x).
Proof.
  assert (1 <= (k - 1) / 2)%Z as Hh by (apply Z.div_le_lower_bound; lia).
  assert (Nat.min 1 (d1 x) = 1) as Hmin by lia.
  unfold moving_avg.pad, tile1, self, concat1, cat1, padded.
  cbn -[Nat.min Nat.modulo Nat.mul Z.div].
  rewrite bool_decide_eq_false_2 by lia.
  cbn -[Nat.min Nat.modulo Nat.mul Z.div].
  rewrite bool_decide_eq_true_2 by done.
  cbn -[Nat.min Nat.modulo Nat.mul Z.div].
  rewrite bool_decide_eq_true_2 by done.
  cbn -[Nat.min Nat.modulo Nat.mul Z.div].
  rewrite Hmin, !Nat.mul_1_r. reflexivity.
Qed.

Lemma padded_len : d1 (padded k x) = d1 x + Z.to_nat k - 1.
Proof.
  pose proof (odd_half k k_odd) as Hk.
  assert (0 <= (k - 1) / 2)%Z as Hh by (apply Z.div_pos; lia).
  unfold padded. cbn [d1]. fold half.
  assert (Z.to_nat k = 2 * half + 1) as ->; [|lia].
  unfold half. lia.
Qed.

Lemma forward_eq : moving_avg.forward self x = Ok (smoothed k x).
Proof.
  unfold moving_avg.forward. rewrite pad_eq.
  pose proof padded_len as Hlen.
  unfold self, AvgPool1D_forward, smoothed.
  cbn -[Nat.modulo Nat.mul Nat.div Z.div padded].
  rewrite bool_decide_eq_true_2 by lia.
  rewrite bool_decide_eq_true_2 by lia.
  cbn -[Nat.modulo Nat.mul Nat.div Z.div padded].
  replace (Z.to_nat 1) with 1 by lia.
  rewrite Hlen, Nat.div_1_r.
  replace (d1 x + Z.to_nat k - 1 - Z.to_nat k + 1) with (d1 x) by lia.
  reflexivity.
Qed.

End Smoother.

(** C4, as the code has it.  For an odd kernel size k >= 3 and a window of
    length L >= 1, the smoother pads the sequence with (k-1)/2 copies of the
    first timestep in front and (k-1)/2 copies of the last timestep at the
    end, the padded length being L + k - 1, and then returns, at every
    timestep l < L, the arithmetic mean of the k padded values
    l, ..., l + k - 1 (stride 1, no further padding); the output has the
    shape of the input. *)
Theorem moving_avg_forward_pads_and_averages (k : Z) (x : T3) :
  (3 <= k)%Z -> Z.odd k = true -> 1 <= d1 x ->
  let self := moving_avg.mk k (mkAvgPool1D k 1) in
  let half := Z.to_nat ((k - 1) / 2) in
  exists p y,
    moving_avg.__init__ k 1 = Ok self /\
    moving_avg.pad self x = Ok p /\
    moving_avg.forward self x = Ok y /\
    shape p = (d0 x, d1 x + Z.to_nat k - 1, d2 x) /\
    (forall b j c, j < half -> get p b j c = get x b 0 c) /\
    (forall b j c, j < d1 x -> get p b (half + j) c = get x b j c) /\
    (forall b j c, j < half ->
       get p b (half + d1 x + j) c = get x b (d1 x - 1) c) /\
    shape y = shape x /\
    (forall b l c, l < d1 x ->
       get y b l c =
       (sumn (Z.to_nat k) (fun j => get p b (l + j) c)
        / Qc_of_nat (Z.to_nat k))%Qc).
Proof.
  intros Hbig Hodd Hlen self half.
  assert (0 < k)%Z as Hpos by lia.
  exists (padded k x), (smoothed k x).
  split; [reflexivity|].
  split; [apply pad_eq; assumption|].
  split; [apply forward_eq; assumption|].
  split.
  { unfold shape. rewrite padded_len by assumption. reflexivity. }
  split.
  { intros b j c Hj. unfold padded. cbn [get]. fold half.
    rewrite bool_decide_eq_true_2 by lia.
    rewrite bool_decide_eq_true_2 by lia.
    rewrite Nat.mod_1_r. reflexivity. }
  split.
  { intros b j c Hj. unfold padded. cbn [get]. fold half.
    rewrite bool_decide_eq_true_2 by lia.
    rewrite bool_decide_eq_false_2 by lia.
    f_equal. lia. }
  split.
  { intros b j c Hj. unfold padded. cbn [get]. fold half.
    rewrite bool_decide_eq_false_2 by lia.
    rewrite Nat.mod_1_r. f_equal. lia. }
  split; [reflexivity|].
  intros b l c Hl. unfold smoothed. cbn [get].
  rewrite Nat.mul_1_r. reflexivity.
Qed.

(** C4, as stated, fails: 1 is an odd kernel size, and with it both repeat
    counts are (1 - 1) / 2 = 0, which the tiling operator refuses; the
    smoother raises instead of returning the input's length. *)
Lemma moving_avg_forward_kernel_1_raises :
  Z.odd 1 = true /\
  moving_avg.__init__ 1 1 = Ok (moving_avg.mk 1 (mkAvgPool1D 1 1)) /\
  d1 Example.ramp = 3 /\
  moving_avg.forward (moving_avg.mk 1 (mkAvgPool1D 1 1)) Example.ramp
    = Err InvalidArgument.
Proof. repeat split. Qed.

(** ** The series decomposer *)

Lemma bdim_same (n : nat) : bdim n n = Some n.
Proof. unfold bdim. rewrite bool_decide_eq_true_2; done. Qed.

Lemma bidx_in_range (m i : nat) : i < m -> bidx m i = i.
Proof. unfold bidx. case_bool_decide; lia. Qed.

(** Two tensors of one shape combine index by index. *)
Lemma elementwise_same_shape (f : Qc -> Qc -> Qc) (a b : T3) :
  shape a = shape b ->
  exists r, elementwise f a b = Ok r /\ shape r = shape a /\
    forall i j l, i < d0 a -> j < d1 a -> l < d2 a ->
      get r i j l = f (get a i j l) (get b i j l).
Proof.
  unfold shape. intros Hs. injection Hs as H0 H1 H2.
  unfold elementwise. rewrite <- H0, <- H1, <- H2, !bdim_same.
  eexists. split; [reflexivity|]. split; [reflexivity|].
  intros i j l Hi Hj Hl. cbn [get].
  rewrite !bidx_in_range by assumption. reflexivity.
Qed.

(** The decomposer on a window of length L >= 1, for an odd kernel size
    k >= 3. *)
Lemma series_decomp_forward_ok (k : Z) (x : T3) :
  (3 <= k)%Z -> Z.odd k = true -> 1 <= d1 x ->
  let self := series_decomp.mk (moving_avg.mk k (mkAvgPool1D k 1)) in
  exists seasonal trend,
    series_decomp.forward self x = Ok (seasonal, trend) /\
    moving_avg.forward (series_decomp.moving_avg self) x = Ok trend /\
    shape seasonal = shape x /\ shape trend = shape x /\
    forall b l c, b < d0 x -> l < d1 x -> c < d2 x ->
      get seasonal b l c = (get x b l c - get trend b l c)%Qc.
Proof.
  intros Hpos Hodd Hlen self.
  pose proof (forward_eq k x Hpos Hodd Hlen) as Hfw.
  destruct (elementwise_same_shape Qcminus x (smoothed k x) eq_refl)
    as (s & Hsub & Hshape & Hget).
  exists s, (smoothed k x).
  split.
  { unfold series_decomp.forward, self. cbn [series_decomp.moving_avg].
    rewrite Hfw. cbn [mbind res_bind]. unfold sub. rewrite Hsub. reflexivity. }
  split; [exact Hfw|].
  split; [exact Hshape|].
  split; [reflexivity|].
  exact Hget.
Qed.

(** C3. For an odd kernel size k >= 3 (the predictor uses 25) and a window
    of length L >= 1 the decomposer returns (seasonal, trend) where trend is
    the smoother's output, seasonal = x - trend, both have the shape of x,
    and seasonal + trend gives back x at every index. *)
Theorem series_decomp_forward_sums_to_input (k : Z) (x : T3) :
  (3 <= k)%Z -> Z.odd k = true -> 1 <= d1 x ->
  let self := series_decomp.mk (moving_avg.mk k (mkAvgPool1D k 1)) in
  exists seasonal trend back,
    series_decomp.__init__ k = Ok self /\
    series_decomp.forward self x = Ok (seasonal, trend) /\
    moving_avg.forward (series_decomp.moving_avg self) x = Ok trend /\
    shape seasonal = shape x /\ shape trend = shape x /\
    add seasonal trend = Ok back /\ shape back = shape x /\
    forall b l c, b < d0 x -> l < d1 x -> c < d2 x ->
      get seasonal b l c = (get x b l c - get trend b l c)%Qc /\
      (get seasonal b l c + get trend b l c)%Qc = get x b l c /\
      get back b l c = get x b l c.
Proof.
  intros Hpos Hodd Hlen self.
  destruct (series_decomp_forward_ok k x Hpos Hodd Hlen)
    as (s & t & Hfw & Hma & Hs & Ht & Hget).
  assert (shape s = shape t) as Hst by congruence.
  destruct (elementwise_same_shape Qcplus s t Hst)
    as (back & Hadd & Hbshape & Hbget).
  exists s, t, back.
  repeat (split; [first [reflexivity | assumption | congruence]|]).
  intros b l c Hb Hl Hc.
  unfold shape in Hs. injection Hs as E0 E1 E2.
  rewrite Hbget by lia. rewrite Hget by assumption.
  split; [reflexivity|]. split; ring.
Qed.

(** ** The anomaly scorer *)

(** C1. For y_pred and y_true of one shape [B, L, C] with C >= 1, the
    scorer returns one scalar per (batch, timestep): the mean over the
    channel axis of the squared difference,
    score[b, l] = (1/C) * sum_c (y_pred[b,l,c] - y_true[b,l,c])^2. *)
Theorem get_loss_is_channel_mean_of_squared_error (y_pred y_true : T3) :
  shape y_pred = shape y_true -> 0 < d2 y_pred ->
  exists score : T2,
    DLinear_AD._get_loss y_pred y_true = Ok score /\
    shape2 score = (d0 y_pred, d1 y_pred) /\
    forall b l, b < d0 y_pred -> l < d1 y_pred ->
      get2 score b l =
      (1 / Qc_of_nat (d2 y_pred)
       * sumn (d2 y_pred)
           (fun c => (get y_pred b l c - get y_true b l c)
                     * (get y_pred b l c - get y_true b l c)))%Qc.
Proof.
  intros Hshape HC.
  destruct (elementwise_same_shape Qcminus y_true y_pred (eq_sym Hshape))
    as (d & Hsub & Hd & Hget).
  unfold shape in Hshape, Hd.
  injection Hshape as E0 E1 E2. injection Hd as F0 F1 F2.
  unfold DLinear_AD._get_loss, mse_loss_none, sub. rewrite Hsub.
  cbn [mbind res_bind]. unfold mean_last.
  rewrite (bool_decide_eq_true_2 (0 < d2 (square d)))
    by (cbn [square d2]; lia).
  eexists. split; [reflexivity|].
  split.
  { unfold shape2. cbn [r0 r1 square d0 d1]. congruence. }
  intros b l Hb Hl. cbn [get2 square d2 get].
  rewrite F2, <- E2.
  rewrite (sumn_ext _ _
    (fun c => (get y_pred b l c - get y_true b l c)
              * (get y_pred b l c - get y_true b l c))%Qc).
  - unfold Qcdiv. ring.
  - intros c Hc. rewrite Hget by lia. ring.
Qed.

(** ** fit and the threshold *)

(** Peel one monadic step of a run known to succeed. *)
Ltac step_ok H :=
  match type of H with
  | (mbind _ ?m) = Ok _ =>
      let E := fresh "E" in
      destruct m eqn:E; cbn [mbind res_bind] in H; [|discriminate H]
  | (match ?m with Some _ => _ | None => _ end) = Ok _ =>
      let E := fresh "E" in destruct m eqn:E
  | (let '(_, _) := ?p in _) = Ok _ => destruct p
  | (if ?b then _ else _) = Ok _ =>
      let E := fresh "E" in destruct b eqn:E
  end.

Lemma get_threshold_ok (self : DLinear_AD.t) (dl vdl : option DLinear_AD.DataLoader)
    (th : Qc) (self' : DLinear_AD.t) (calls : list DLinear_AD.event) :
  DLinear_AD._get_threshold self dl vdl = Ok (th, self', calls) ->
  exists train,
    dl = Some train /\
    DLinear_AD._threshold_fn self (DLinear_AD._network self) train vdl
      (DLinear_AD._anomaly_ratio self) (DLinear_AD._criterion self) = Ok th /\
    self' = DLinear_AD.set_threshold self (Some th) /\
    calls = [DLinear_AD.Calibrate].
Proof.
  unfold DLinear_AD._get_threshold, DLinear_AD.auto_cast. intros H.
  destruct dl as [train|]; [|discriminate H].
  exists train.
  assert (forall r : res Qc, (if DLinear_AD.use_amp self then r else r) = r) as Hif
    by (intros r; destruct (DLinear_AD.use_amp self); reflexivity).
  rewrite Hif in H.
  destruct (DLinear_AD._threshold_fn self _ train vdl _ _) as [v|e] eqn:E;
    cbn [mbind res_bind] in H; [|discriminate H].
  injection H as -> <- <-. auto.
Qed.

(** C2. After a completed fit the model holds one threshold.  The training
    loop runs once, on the loaders built from the data.  With a threshold
    given at construction, fit makes no calibration call and returns the
    model as training left it, with that value.  Without one, the
    calibration function is called exactly once, after the training loop,
    on the trained model's network and on the loaders built again from the
    same data without shuffling, and the value it returns is the threshold
    of the model fit returns, which is otherwise as training left it.  The
    calibration step raises when it is given no train data.  (The inherited
    training loop is assumed not to assign the threshold.) *)
Theorem fit_sets_threshold_once `{Base : DLinear_AD.AnomalyBaseModel}
    (self : DLinear_AD.t) (train : DLinear_AD.TSDataset)
    (valid : option DLinear_AD.TSDataset) (to_static_train use_amp : bool)
    (amp_level : string) (self' : DLinear_AD.t)
    (calls : list DLinear_AD.event) :
  (forall s a b c s', DLinear_AD._fit s a b c = Ok s' ->
     DLinear_AD._threshold s' = DLinear_AD._threshold s) ->
  DLinear_AD.fit self train valid to_static_train use_amp amp_level
    = Ok (self', calls) ->
  let configured :=
    DLinear_AD.set_amp_level (DLinear_AD.set_use_amp self use_amp) amp_level in
  let prepared :=
    DLinear_AD.set_fit_params configured
      (DLinear_AD._update_fit_params configured train valid) in
  (exists (train_dataloader valid_dataloaders : option DLinear_AD.DataLoader)
          (trained : DLinear_AD.t),
     DLinear_AD._init_fit_dataloaders prepared train valid None
       = Ok (train_dataloader, valid_dataloaders) /\
     DLinear_AD._fit prepared train_dataloader valid_dataloaders to_static_train
       = Ok trained /\
     match DLinear_AD._threshold self with
     | Some user =>
         self' = trained /\
         DLinear_AD._threshold self' = Some user /\
         calls = [DLinear_AD.Train]
     | None =>
         exists (dl : DLinear_AD.DataLoader)
                (vdl : option DLinear_AD.DataLoader) (v : Qc),
           DLinear_AD._init_fit_dataloaders trained train valid (Some false)
             = Ok (Some dl, vdl) /\
           DLinear_AD._threshold_fn trained (DLinear_AD._network trained) dl vdl
             (DLinear_AD._anomaly_ratio trained) (DLinear_AD._criterion trained)
             = Ok v /\
           self' = DLinear_AD.set_threshold trained (Some v) /\
           DLinear_AD._threshold self' = Some v /\
           calls = [DLinear_AD.Train; DLinear_AD.Calibrate]
     end) /\
  forall s vdl, DLinear_AD._get_threshold s None vdl = Err ValueError.
Proof.
  intros Hfit H configured prepared. split; [|reflexivity].
  unfold DLinear_AD.fit in H. fold configured in H. fold prepared in H.
  step_ok H.
  step_ok H.
  step_ok H. step_ok H.
  step_ok H.
  pose proof (Hfit _ _ _ _ _ E2) as Hth. cbn in Hth.
  exists o, o0, a1. split; [reflexivity|]. split; [exact E2|].
  rewrite <- Hth.
  step_ok H.
  - (* a threshold is already present *)
    injection H as <- <-. auto.
  - (* calibration *)
    step_ok H. step_ok H. step_ok H.
    destruct a2 as [[th s'] calls'].
    apply get_threshold_ok in E5 as (dl & -> & Hfn & -> & ->).
    injection H as <- <-.
    exists dl, o2, th. auto.
Qed.

(** ** predict *)

(** What a successful [predict] returns: the scores of the inherited
    scorer, flattened, each compared with the stored threshold. *)
Lemma predict_ok `{Base : DLinear_AD.AnomalyBaseModel}
    (self : DLinear_AD.t) (tsdataset : DLinear_AD.TSDataset) (labels : list Z) :
  DLinear_AD.predict self tsdataset = Ok labels ->
  exists (dl : DLinear_AD.DataLoader) (chunks : list (list Qc)) (threshold : Qc),
    DLinear_AD._init_predict_dataloader self tsdataset
      ((Z.of_nat (r0 (DLinear_AD.observed_cov tsdataset)) - 1)%Z,
       (Z.of_nat (r0 (DLinear_AD.observed_cov tsdataset)) - 1)%Z) = Ok dl /\
    DLinear_AD._get_anomaly_score self dl = Ok chunks /\
    DLinear_AD._threshold self = Some threshold /\
    labels =
      map (fun s => if bool_decide (threshold <= s)%Qc then 1%Z else 0%Z)
          (concat chunks).
Proof.
  unfold DLinear_AD.predict. intros H.
  step_ok H. step_ok H.
  destruct a0 as [|c0 cs]; cbn [mbind res_bind] in H; [discriminate H|].
  step_ok H; [|discriminate H].
  injection H as <-.
  exists a, (c0 :: cs), q. repeat split; try assumption.
  apply map_ext. intros s. destruct (bool_decide _); reflexivity.
Qed.

(** C10. In predict the label of a timestep is 1 exactly when its score is
    greater than or equal to the threshold; a score equal to the threshold
    is labelled 1. *)
Theorem predict_threshold_comparison_is_inclusive
    `{Base : DLinear_AD.AnomalyBaseModel}
    (self : DLinear_AD.t) (tsdataset : DLinear_AD.TSDataset) (labels : list Z) :
  DLinear_AD.predict self tsdataset = Ok labels ->
  exists (dl : DLinear_AD.DataLoader) (chunks : list (list Qc)) (threshold : Qc),
    DLinear_AD._init_predict_dataloader self tsdataset
      ((Z.of_nat (r0 (DLinear_AD.observed_cov tsdataset)) - 1)%Z,
       (Z.of_nat (r0 (DLinear_AD.observed_cov tsdataset)) - 1)%Z) = Ok dl /\
    DLinear_AD._get_anomaly_score self dl = Ok chunks /\
    DLinear_AD._threshold self = Some threshold /\
    length labels = length (concat chunks) /\
    forall (i : nat) (score : Qc), concat chunks !! i = Some score ->
      ((threshold <= score)%Qc -> labels !! i = Some 1%Z) /\
      ((score < threshold)%Qc -> labels !! i = Some 0%Z) /\
      (score = threshold -> labels !! i = Some 1%Z).
Proof.
  intros H.
  destruct (predict_ok self tsdataset labels H)
    as (dl & chunks & threshold & Hdl & Hsc & Hth & ->).
  exists dl, chunks, threshold.
  repeat (split; [assumption|]).
  split; [apply length_map|].
  intros i score Hi.
  rewrite list_lookup_fmap, Hi. cbn [fmap option_fmap option_map].
  split; [|split].
  - intros Hle. rewrite bool_decide_eq_true_2 by assumption. reflexivity.
  - intros Hlt. rewrite bool_decide_eq_false_2; [reflexivity|].
    apply Qclt_not_le. assumption.
  - intros ->. rewrite bool_decide_eq_true_2 by apply Qcle_refl. reflexivity.
Qed.

(** ** init_weight *)

Section InitWeight.
Import _DLinearModule.
Variable para : gmap string Param.

(** One key: the loop body does not fail on a key of the model, replaces
    the entry exactly when [can_load] holds, and keeps every shape. *)
Lemma load_key_spec (st : load_state) (k : string) :
  is_Some (model_state_dict st !! k) ->
  exists st',
    load_key para st k = Ok st' /\
    (forall k', model_state_dict st' !! k' =
       if bool_decide (k' = k) && can_load para (model_state_dict st) k
       then para !! k' else model_state_dict st !! k') /\
    num_params_loaded st' =
      num_params_loaded st
      + (if can_load para (model_state_dict st) k then 1 else 0) /\
    (forall k', can_load para (model_state_dict st') k'
                = can_load para (model_state_dict st) k') /\
    (forall k', is_Some (model_state_dict st !! k') ->
                is_Some (model_state_dict st' !! k')).
Proof.
  intros [q Hq]. unfold load_key, can_load. rewrite Hq.
  destruct (para !! k) as [p|] eqn:Hp.
  - destruct (decide (p_shape p = p_shape q)) as [Heq|Hne].
    + rewrite (bool_decide_eq_false_2 (p_shape p <> p_shape q)) by tauto.
      rewrite (bool_decide_eq_true_2 _ Heq).
      eexists. split; [reflexivity|]. cbn [model_state_dict num_params_loaded].
      split; [|split; [lia|split]].
      * intros k'. rewrite andb_true_r. rewrite lookup_insert.
        destruct (decide (k = k')) as [->|Hk].
        -- rewrite bool_decide_eq_true_2 by done. congruence.
        -- rewrite bool_decide_eq_false_2 by congruence. reflexivity.
      * intros k'. rewrite lookup_insert.
        destruct (decide (k = k')) as [<-|Hk]; [|reflexivity].
        rewrite Hp, Hq, Heq. reflexivity.
      * intros k' Hk'. rewrite lookup_insert.
        destruct (decide (k = k')); [eauto|assumption].
    + rewrite (bool_decide_eq_true_2 (p_shape p <> p_shape q)) by assumption.
      rewrite (bool_decide_eq_false_2 _ Hne).
      eexists. split; [reflexivity|]. cbn [model_state_dict num_params_loaded].
      split; [|split; [lia|split]]; try done.
      intros k'. rewrite andb_false_r. reflexivity.
  - eexists. split; [reflexivity|]. cbn [model_state_dict num_params_loaded].
    split; [|split; [lia|split]]; try done.
    intros k'. rewrite andb_false_r. reflexivity.
Qed.

(** The whole loop, over any list of keys of the model. *)
Lemma load_keys_spec (keys : list string) : forall st : load_state,
  (forall k, k ∈ keys -> is_Some (model_state_dict st !! k)) ->
  exists st',
    load_keys para st keys = Ok st' /\
    (forall k, model_state_dict st' !! k =
       if bool_decide (k ∈ keys) && can_load para (model_state_dict st) k
       then para !! k else model_state_dict st !! k) /\
    num_params_loaded st' =
      num_params_loaded st
      + length (filter (fun k => can_load para (model_state_dict st) k = true)
                       keys).
Proof.
  induction keys as [|k keys IH]; intros st Hkeys.
  - exists st. split; [reflexivity|]. split; [|cbn; lia].
    intros k. rewrite bool_decide_eq_false_2 by apply not_elem_of_nil.
    reflexivity.
  - destruct (load_key_spec st k) as (st1 & Hstep & Hm1 & Hn1 & Hc1 & Hdom1).
    { apply Hkeys. left. }
    destruct (IH st1) as (st' & Hrest & Hm & Hn).
    { intros k' Hk'. apply Hdom1, Hkeys. right. assumption. }
    exists st'. split.
    { cbn [load_keys]. rewrite Hstep. exact Hrest. }
    split.
    + intros k'. rewrite Hm, Hc1, Hm1.
      destruct (decide (k' = k)) as [->|Hne].
      * rewrite (bool_decide_eq_true_2 (k = k)) by done.
        rewrite (bool_decide_eq_true_2 (k ∈ k :: keys)) by left.
        cbn [andb].
        destruct (can_load para (model_state_dict st) k);
          [|rewrite andb_false_r]; try reflexivity.
        destruct (bool_decide (k ∈ keys)); reflexivity.
      * rewrite (bool_decide_eq_false_2 (k' = k)) by assumption.
        cbn [andb].
        rewrite (bool_decide_ext (k' ∈ k :: keys) (k' ∈ keys)); [reflexivity|].
        rewrite elem_of_cons. tauto.
    + rewrite Hn, Hn1, filter_cons.
      rewrite (list_filter_iff _
                 (fun k0 => can_load para (model_state_dict st) k0 = true));
        [|intros k0; rewrite Hc1; reflexivity].
      destruct (can_load para (model_state_dict st) k) eqn:Hk.
      * rewrite decide_True by reflexivity. cbn [length]. lia.
      * rewrite decide_False by discriminate. lia.
Qed.

End InitWeight.

Lemma filter_fst {A} (P : string -> Prop) `{!forall k, Decision (P k)}
    (l : list (string * A)) :
  (filter (fun kq => P kq.1) l).*1 = filter P (l.*1).
Proof.
  induction l as [|[k q] l IH]; [reflexivity|].
  rewrite fmap_cons, !filter_cons. cbn [fst].
  destruct (decide (P k)); [rewrite fmap_cons|]; rewrite IH; reflexivity.
Qed.

Lemma size_filter_keys {A} (P : string -> Prop) `{!forall k, Decision (P k)}
    (m : gmap string A) :
  size (filter (fun kq => P kq.1) m) = length (filter P (map_to_list m).*1).
Proof.
  rewrite <- length_map_to_list, map_filter_alt, map_to_list_to_map.
  - rewrite <- filter_fst, length_fmap. reflexivity.
  - rewrite filter_fst. apply NoDup_filter, NoDup_fst_map_to_list.
Qed.


(** A run of init_weight with a pretrained mapping. *)
Lemma init_weight_run
    (path : string) (paddle_load : string -> res (gmap string _DLinearModule.Param))
    (th_linear_fill : gmap string _DLinearModule.Param ->
                      gmap string _DLinearModule.Param)
    (state_dict para : gmap string _DLinearModule.Param) :
  path <> EmptyString -> paddle_load path = Ok para ->
  exists loaded warnings n,
    _DLinearModule.init_weight (Some path) paddle_load th_linear_fill state_dict
      = Ok (loaded, warnings ++ [_DLinearModule.Info_loaded n (size state_dict)]) /\
    (forall k, loaded !! k =
       if _DLinearModule.can_load para state_dict k then para !! k
       else state_dict !! k) /\
    n = size (filter (fun kq => _DLinearModule.can_load para state_dict kq.1 = true)
                     state_dict).
Proof.
  intros Hpath Hload.
  set (st0 := _DLinearModule.mkLoad state_dict 0 []).
  destruct (load_keys_spec para (map_to_list state_dict).*1 st0)
    as (st' & Hrun & Hm & Hn).
  { intros k Hk. apply list_elem_of_fmap in Hk as ([k' q] & -> & Hin).
    apply elem_of_map_to_list in Hin. cbn. eauto. }
  cbn [_DLinearModule.model_state_dict _DLinearModule.num_params_loaded st0]
    in Hm, Hn.
  assert (forall k, _DLinearModule.model_state_dict st' !! k =
            if _DLinearModule.can_load para state_dict k then para !! k
            else state_dict !! k) as Hlook.
  { intros k. rewrite Hm.
    destruct (_DLinearModule.can_load para state_dict k) eqn:Hc;
      [|rewrite andb_false_r; reflexivity].
    rewrite bool_decide_eq_true_2; [reflexivity|].
    unfold _DLinearModule.can_load in Hc.
    destruct (para !! k); [|discriminate].
    destruct (state_dict !! k) as [q|] eqn:Hq; [|discriminate].
    apply list_elem_of_fmap. exists (k, q). split; [reflexivity|].
    apply elem_of_map_to_list. assumption. }
  assert (size (_DLinearModule.model_state_dict st') = size state_dict) as Hsize.
  { rewrite <- !size_dom. f_equal. apply set_eq. intros k.
    rewrite !elem_of_dom, Hlook. unfold _DLinearModule.can_load.
    destruct (para !! k) as [p|]; [|reflexivity].
    destruct (state_dict !! k) as [q|]; [|reflexivity].
    destruct (bool_decide _); split; eauto. }
  exists (_DLinearModule.model_state_dict st'), (_DLinearModule.log st'),
         (_DLinearModule.num_params_loaded st').
  split.
  { unfold _DLinearModule.init_weight.
    rewrite bool_decide_eq_true_2 by assumption.
    rewrite Hload. cbn [mbind res_bind]. fold st0. rewrite Hrun.
    cbn [mbind res_bind]. rewrite Hsize. reflexivity. }
  split; [exact Hlook|].
  rewrite Hn. cbn [Nat.add]. symmetry.
  exact (size_filter_keys
           (fun k => _DLinearModule.can_load para state_dict k = true)
           state_dict).
Qed.

(** init_weight returns whenever the file it is told to read can be read. *)
Lemma init_weight_returns
    (pretrain : option string)
    (paddle_load : string -> res (gmap string _DLinearModule.Param))
    (th_linear_fill : gmap string _DLinearModule.Param ->
                      gmap string _DLinearModule.Param)
    (state_dict : gmap string _DLinearModule.Param) :
  readable pretrain paddle_load ->
  exists loaded log,
    _DLinearModule.init_weight pretrain paddle_load th_linear_fill state_dict
    = Ok (loaded, log).
Proof.
  intros Hread. destruct pretrain as [path|]; [|eexists _, _; reflexivity].
  destruct (decide (path = EmptyString)) as [->|Hpath].
  - eexists _, _. reflexivity.
  - destruct (Hread path eq_refl Hpath) as [para Hload].
    destruct (init_weight_run path paddle_load th_linear_fill state_dict para
                Hpath Hload) as (loaded & warnings & n & Hrun & _).
    eexists _, _. exact Hrun.
Qed.

(** ** The predictor *)

Lemma lookup_map_seq {A} (f : nat -> A) (n i : nat) :
  i < n -> map f (seq 0 n) !! i = Some (f i).
Proof.
  intros Hi. change (map f (seq 0 n)) with (f <$> seq 0 n).
  rewrite list_lookup_fmap, lookup_seq_lt by assumption. reflexivity.
Qed.

Lemma imap_map_seq {A B} (f : nat -> A -> B) (g : nat -> A) (n : nat) :
  imap f (map g (seq 0 n)) = map (fun i => f i (g i)) (seq 0 n).
Proof.
  apply list_eq. intros i. rewrite list_lookup_imap.
  change (map g (seq 0 n)) with (g <$> seq 0 n).
  change (map (fun i => f i (g i)) (seq 0 n))
    with ((fun i => f i (g i)) <$> seq 0 n).
  rewrite !list_lookup_fmap.
  destruct (decide (i < n)) as [Hi|Hi].
  - rewrite lookup_seq_lt by assumption. reflexivity.
  - rewrite lookup_seq_ge by lia. reflexivity.
Qed.

(** *** Construction *)

(** Installing a dictionary changes the values of the layers and nothing
    else. *)
Lemma set_dict_built (d : gmap string _DLinearModule.Param)
    (c_in seq_len : nat) (individual : bool)
    (sv tv : nat -> _DLinearModule.values) :
  exists sv' tv',
    _DLinearModule.set_dict (built c_in seq_len individual sv tv) d
    = built c_in seq_len individual sv' tv'.
Proof.
  pose (installed := fun (prefix : string) (v : nat -> _DLinearModule.values)
                         (i : nat) =>
    let l := _DLinearModule.set_Linear d
               (if individual then prefix +:+ "." +:+ pretty i else prefix)
               (_DLinearModule.new_Linear seq_len seq_len (v i)) in
    (weight l, bias l)).
  exists (installed "Linear_Seasonal" sv), (installed "Linear_Trend" tv).
  unfold _DLinearModule.set_dict, built, installed.
  destruct individual; cbn -[String.append pretty]; [|reflexivity].
  rewrite !imap_map_seq. reflexivity.
Qed.

Lemma paddle_nn_Linear_ok (n : nat) (v : _DLinearModule.values) :
  1 <= n ->
  _DLinearModule.paddle_nn_Linear n n v = Ok (_DLinearModule.new_Linear n n v).
Proof.
  intros Hn. unfold _DLinearModule.paddle_nn_Linear.
  rewrite bool_decide_eq_true_2 by lia. reflexivity.
Qed.

Lemma paddle_nn_Linear_empty (v : _DLinearModule.values) :
  _DLinearModule.paddle_nn_Linear 0 0 v = Err AssertionError.
Proof. reflexivity. Qed.

(** The loop of lines 86-92 appends one pair of layers per channel. *)
Lemma layer_loop_ok (seq_len : nat) (sv tv : nat -> _DLinearModule.values)
    (n : nat) : forall a : nat,
  1 <= seq_len ->
  _DLinearModule.for_range
    (fun (acc : list Linear * list Linear) i =>
       ls ← _DLinearModule.paddle_nn_Linear seq_len seq_len (sv i);
       lt ← _DLinearModule.paddle_nn_Linear seq_len seq_len (tv i);
       Ok (acc.1 ++ [ls], acc.2 ++ [lt]))
    (map (fun i => _DLinearModule.new_Linear seq_len seq_len (sv i)) (seq 0 a),
     map (fun i => _DLinearModule.new_Linear seq_len seq_len (tv i)) (seq 0 a))
    (seq a n)
  = Ok (map (fun i => _DLinearModule.new_Linear seq_len seq_len (sv i))
            (seq 0 (a + n)),
        map (fun i => _DLinearModule.new_Linear seq_len seq_len (tv i))
            (seq 0 (a + n))).
Proof.
  induction n as [|n IH]; intros a Hpos.
  - rewrite Nat.add_0_r. reflexivity.
  - cbn [seq _DLinearModule.for_range].
    rewrite !paddle_nn_Linear_ok by assumption.
    cbn [mbind res_bind fst snd].
    replace (a + S n) with (S a + n) by lia.
    rewrite <- (IH (S a) Hpos). rewrite !seq_S, !map_app. reflexivity.
Qed.

(** The layers the constructor creates, before init_weight runs. *)
Lemma init_layers (c_in seq_len pred_len : nat) (individual : bool)
    (pretrain : option string)
    (paddle_load : string -> res (gmap string _DLinearModule.Param))
    (th_linear_fill : gmap string _DLinearModule.Param ->
                      gmap string _DLinearModule.Param)
    (sv tv : nat -> _DLinearModule.values) :
  1 <= seq_len \/ (individual = true /\ c_in = 0) ->
  _DLinearModule.__init__ c_in seq_len pred_len individual pretrain
    paddle_load th_linear_fill sv tv
  = ('(loaded, _) ←
       _DLinearModule.init_weight pretrain paddle_load th_linear_fill
         (_DLinearModule.state_dict (built c_in seq_len individual sv tv));
     Ok (_DLinearModule.set_dict (built c_in seq_len individual sv tv) loaded)).
Proof.
  intros Hcase. unfold _DLinearModule.__init__, built.
  cbn [series_decomp.__init__ moving_avg.__init__ mbind res_bind].
  destruct individual.
  - destruct Hcase as [Hpos|[_ ->]].
    + pose proof (layer_loop_ok seq_len sv tv c_in 0 Hpos) as Hloop.
      change (seq 0 0) with (@nil nat) in Hloop.
      change (0 + c_in) with c_in in Hloop. cbn [map] in Hloop.
      rewrite Hloop. reflexivity.
    + reflexivity.
  - destruct Hcase as [Hpos|[Hind _]]; [|discriminate Hind].
    rewrite !paddle_nn_Linear_ok by assumption. reflexivity.
Qed.

(** The constructor returns for every window length of at least 1, and
    what it returns differs from [built] in the values of the layers only. *)
Lemma init_ok (c_in seq_len pred_len : nat) (individual : bool)
    (pretrain : option string)
    (paddle_load : string -> res (gmap string _DLinearModule.Param))
    (th_linear_fill : gmap string _DLinearModule.Param ->
                      gmap string _DLinearModule.Param)
    (sv tv : nat -> _DLinearModule.values) :
  1 <= seq_len -> readable pretrain paddle_load ->
  exists sv' tv',
    _DLinearModule.__init__ c_in seq_len pred_len individual pretrain
      paddle_load th_linear_fill sv tv
    = Ok (built c_in seq_len individual sv' tv').
Proof.
  intros Hpos Hread. rewrite init_layers by (left; assumption).
  destruct (init_weight_returns pretrain paddle_load th_linear_fill
              (_DLinearModule.state_dict (built c_in seq_len individual sv tv))
              Hread) as (loaded & log & ->).
  cbn [mbind res_bind].
  destruct (set_dict_built loaded c_in seq_len individual sv tv)
    as (sv' & tv' & ->).
  exists sv', tv'. reflexivity.
Qed.

(** With a window length of 0 the constructor raises as soon as it
    creates a layer. *)
Lemma init_empty (c_in pred_len : nat) (individual : bool)
    (pretrain : option string)
    (paddle_load : string -> res (gmap string _DLinearModule.Param))
    (th_linear_fill : gmap string _DLinearModule.Param ->
                      gmap string _DLinearModule.Param)
    (sv tv : nat -> _DLinearModule.values) :
  individual = false \/ 1 <= c_in ->
  _DLinearModule.__init__ c_in 0 pred_len individual pretrain
    paddle_load th_linear_fill sv tv
  = Err AssertionError.
Proof.
  intros Hcase. unfold _DLinearModule.__init__.
  cbn [series_decomp.__init__ moving_avg.__init__ mbind res_bind].
  destruct individual.
  - destruct Hcase as [Hind|Hc]; [discriminate Hind|].
    destruct c_in as [|n]; [lia|]. reflexivity.
  - reflexivity.
Qed.

(** Whatever the constructor returns is [built] for some values. *)
Lemma init_built (c_in seq_len pred_len : nat) (individual : bool)
    (pretrain : option string)
    (paddle_load : string -> res (gmap string _DLinearModule.Param))
    (th_linear_fill : gmap string _DLinearModule.Param ->
                      gmap string _DLinearModule.Param)
    (sv tv : nat -> _DLinearModule.values) (self : _DLinearModule.t) :
  _DLinearModule.__init__ c_in seq_len pred_len individual pretrain
    paddle_load th_linear_fill sv tv = Ok self ->
  (1 <= seq_len \/ (individual = true /\ c_in = 0)) /\
  exists sv' tv', self = built c_in seq_len individual sv' tv'.
Proof.
  intros H.
  assert (1 <= seq_len \/ (individual = true /\ c_in = 0)) as Hcase.
  { destruct seq_len as [|n]; [|left; lia]. right.
    destruct individual.
    - destruct c_in as [|c]; [auto|].
      rewrite init_empty in H by (right; lia). discriminate H.
    - rewrite init_empty in H by (left; reflexivity). discriminate H. }
  split; [exact Hcase|].
  rewrite init_layers in H by assumption.
  destruct (_DLinearModule.init_weight _ _ _ _) as [[loaded log]|e];
    cbn [mbind res_bind] in H; [|discriminate H].
  injection H as <-. apply set_dict_built.
Qed.

Section PerChannelLoop.
Import _DLinearModule.
Variables (c_in seq_len : nat) (sv tv : nat -> values).
Variables (si ti : T3).
Hypothesis si_shape : d1 si = c_in /\ d2 si = seq_len.
Hypothesis ti_shape : shape ti = shape si.

Let self := built c_in seq_len true sv tv.
Let layer (v : nat -> values) (i : nat) := new_Linear seq_len seq_len (v i).

(** The accumulators keep the shape [B, C, L] throughout the loop. *)
Let acc_ok (acc : T3 * T3) : Prop :=
  shape (fst acc) = (d0 si, c_in, seq_len) /\
  shape (snd acc) = (d0 si, c_in, seq_len).

Lemma channel_step_ok (acc : T3 * T3) (i : nat) :
  acc_ok acc -> i < c_in ->
  exists acc',
    channel_step self si ti acc i = Ok acc' /\ acc_ok acc' /\
    forall b c j,
      get (fst acc') b c j =
        (if bool_decide (c = i)
         then affine (layer sv i) (fun l => get si b i l) j
         else get (fst acc) b c j) /\
      get (snd acc') b c j =
        (if bool_decide (c = i)
         then affine (layer tv i) (fun l => get ti b i l) j
         else get (snd acc) b c j).
Proof.
  destruct acc as [so to]. intros [Hso Hto] Hi.
  unfold shape in Hso, Hto, ti_shape. cbn [fst snd] in Hso, Hto.
  injection Hso as S0 S1 S2. injection Hto as T0 T1 T2.
  injection ti_shape as U0 U1 U2. destruct si_shape as [V1 V2].
  unfold channel_step, self, built, item, select1, Linear_forward2, set1.
  cbn [Linear_Seasonal Linear_Trend].
  rewrite !lookup_map_seq by assumption.
  cbn [mbind res_bind].
  rewrite (bool_decide_eq_true_2 (i < d1 si)) by lia.
  cbn [mbind res_bind r0 r1 new_Linear in_features out_features].
  rewrite (bool_decide_eq_true_2 (d2 si = seq_len)) by lia.
  cbn [mbind res_bind r0 r1].
  rewrite (bool_decide_eq_true_2 (i < d1 so)) by lia.
  rewrite (bool_decide_eq_true_2 (d0 si = d0 so /\ seq_len = d2 so))
    by (split; congruence).
  cbn [mbind res_bind].
  rewrite (bool_decide_eq_true_2 (i < d1 ti)) by lia.
  cbn [mbind res_bind r0 r1].
  rewrite (bool_decide_eq_true_2 (d2 ti = seq_len)) by lia.
  cbn [mbind res_bind r0 r1].
  rewrite (bool_decide_eq_true_2 (i < d1 to)) by lia.
  rewrite (bool_decide_eq_true_2 (d0 ti = d0 to /\ seq_len = d2 to))
    by (split; congruence).
  cbn [mbind res_bind].
  eexists. split; [reflexivity|]. split.
  { unfold acc_ok, shape. cbn [fst snd d0 d1 d2]. split; congruence. }
  intros b c j. cbn [fst snd get get2]. split; reflexivity.
Qed.

Lemma channel_loop_ok (n : nat) : forall (a : nat) (acc : T3 * T3),
  acc_ok acc -> a + n <= c_in ->
  exists acc',
    for_range (channel_step self si ti) acc (seq a n) = Ok acc' /\
    acc_ok acc' /\
    forall b c j,
      get (fst acc') b c j =
        (if bool_decide (a <= c < a + n)
         then affine (layer sv c) (fun l => get si b c l) j
         else get (fst acc) b c j) /\
      get (snd acc') b c j =
        (if bool_decide (a <= c < a + n)
         then affine (layer tv c) (fun l => get ti b c l) j
         else get (snd acc) b c j).
Proof.
  induction n as [|n IH]; intros a acc Hacc Han.
  - exists acc. split; [reflexivity|]. split; [assumption|].
    intros b c j. rewrite bool_decide_eq_false_2 by lia. split; reflexivity.
  - destruct (channel_step_ok acc a Hacc) as (acc1 & Hstep & Hacc1 & Hget1);
      [lia|].
    destruct (IH (S a) acc1 Hacc1) as (acc' & Hloop & Hacc' & Hget); [lia|].
    exists acc'. split.
    { cbn [seq for_range]. rewrite Hstep. exact Hloop. }
    split; [assumption|].
    intros b c j. destruct (Hget b c j) as [Hs Ht].
    destruct (Hget1 b c j) as [Hs1 Ht1].
    rewrite Hs, Ht, Hs1, Ht1.
    destruct (decide (c = a)) as [->|Hne].
    + rewrite (bool_decide_eq_false_2 (S a <= a < S a + n)) by lia.
      rewrite (bool_decide_eq_true_2 (a = a)) by reflexivity.
      rewrite (bool_decide_eq_true_2 (a <= a < a + S n)) by lia.
      split; reflexivity.
    + rewrite (bool_decide_eq_false_2 (c = a)) by assumption.
      rewrite (bool_decide_ext (S a <= c < S a + n) (a <= c < a + S n)) by lia.
      split; reflexivity.
Qed.

End PerChannelLoop.

(** The forward pass of a constructed module on a window of the configured
    length and channel count: it returns, and each output channel is the sum
    of the two affine maps of that channel's decomposed series. *)
Lemma forward_core (c_in seq_len : nat) (individual : bool)
    (sv tv : nat -> _DLinearModule.values) (X : _DLinearModule.batch)
    (seasonal trend : T3) :
  let x := _DLinearModule.observed_cov_numeric X in
  let pick (c : nat) := if individual then c else 0 in
  d1 x = seq_len -> d2 x = c_in ->
  series_decomp.forward (series_decomp.mk (moving_avg.mk 25 (mkAvgPool1D 25 1))) x
    = Ok (seasonal, trend) ->
  shape seasonal = shape x -> shape trend = shape x ->
  exists out,
    _DLinearModule.forward (built c_in seq_len individual sv tv) X = Ok (out, x) /\
    shape out = (d0 x, seq_len, d2 x) /\
    forall b l c, b < d0 x -> l < seq_len -> c < d2 x ->
      get out b l c =
      (affine (_DLinearModule.new_Linear seq_len seq_len (sv (pick c)))
              (fun i => get seasonal b i c) l
       + affine (_DLinearModule.new_Linear seq_len seq_len (tv (pick c)))
                (fun i => get trend b i c) l)%Qc.
Proof.
  intros x pick HL HC Hdec Hs Ht.
  unfold shape in Hs, Ht. injection Hs as S0 S1 S2. injection Ht as T0 T1 T2.
  unfold _DLinearModule.forward. fold x.
  change (_DLinearModule.decompsition (built c_in seq_len individual sv tv))
    with (series_decomp.mk (moving_avg.mk 25 (mkAvgPool1D 25 1))).
  rewrite Hdec. cbn [mbind res_bind].
  destruct individual.
  - (* one pair of layers per channel *)
    change (_DLinearModule.individual (built c_in seq_len true sv tv)) with true.
    change (_DLinearModule.pred_len (built c_in seq_len true sv tv)) with seq_len.
    change (_DLinearModule.channels (built c_in seq_len true sv tv)) with c_in.
    cbv iota.
    destruct (channel_loop_ok c_in seq_len sv tv
                (transpose021 seasonal) (transpose021 trend)) with
      (n := c_in) (a := 0)
      (acc := (zeros (d0 (transpose021 seasonal)) (d1 (transpose021 seasonal))
                     seq_len,
               zeros (d0 (transpose021 trend)) (d1 (transpose021 trend))
                     seq_len))
      as ([so to] & Hloop & [Hso Hto] & Hget).
    { cbn [transpose021 d1 d2]. split; congruence. }
    { unfold shape. cbn [transpose021 d0 d1 d2]. congruence. }
    { unfold shape. cbn [fst snd zeros transpose021 d0 d1 d2].
      split; congruence. }
    { lia. }
    rewrite Hloop. cbn [mbind res_bind fst snd] in *.
    destruct (elementwise_same_shape Qcplus so to) as (r & Hadd & Hr & Hrget);
      [congruence|].
    unfold add. rewrite Hadd. cbn [mbind res_bind].
    eexists. split; [reflexivity|].
    unfold shape in Hso, Hr. cbn [transpose021 d0] in Hso.
    injection Hso as A0 A1 A2.
    rewrite A0, A1, A2 in Hr. injection Hr as R0 R1 R2.
    split.
    { unfold shape. cbn [transpose021 d0 d1 d2]. congruence. }
    intros b l c Hb Hl Hc. cbn [transpose021 get].
    rewrite Hrget by lia.
    destruct (Hget b c l) as [-> ->].
    rewrite bool_decide_eq_true_2 by lia. reflexivity.
  - (* one shared pair of layers *)
    cbn [_DLinearModule.individual _DLinearModule.Linear_Seasonal
         _DLinearModule.Linear_Trend _DLinearModule.call built].
    unfold Linear_forward3.
    cbn [transpose021 d2 _DLinearModule.new_Linear in_features out_features].
    rewrite (bool_decide_eq_true_2 (d1 seasonal = seq_len)) by congruence.
    rewrite (bool_decide_eq_true_2 (d1 trend = seq_len)) by congruence.
    cbn [mbind res_bind].
    match goal with
    | |- context [add ?a ?b] =>
        destruct (elementwise_same_shape Qcplus a b) as (r & Hadd & Hr & Hrget)
    end.
    { unfold shape. cbn [transpose021 d0 d1 d2]. congruence. }
    unfold add. rewrite Hadd. cbn [mbind res_bind].
    eexists. split; [reflexivity|].
    unfold shape in Hr. cbn [transpose021 d0 d1 d2] in Hr, Hrget.
    injection Hr as R0 R1 R2.
    split.
    { unfold shape. cbn [transpose021 d0 d1 d2]. congruence. }
    intros b l c Hb Hl Hc. cbn [transpose021 get].
    rewrite Hrget by lia. cbn [get]. reflexivity.
Qed.

Lemma layer_of_built (c_in seq_len : nat) (individual : bool)
    (sv tv : nat -> _DLinearModule.values) (c : nat) :
  c < c_in ->
  let self := built c_in seq_len individual sv tv in
  let pick := if individual then c else 0 in
  _DLinearModule.layer_of (_DLinearModule.Linear_Seasonal self) c
    = Some (_DLinearModule.new_Linear seq_len seq_len (sv pick)) /\
  _DLinearModule.layer_of (_DLinearModule.Linear_Trend self) c
    = Some (_DLinearModule.new_Linear seq_len seq_len (tv pick)).
Proof.
  intros Hc. destruct individual; cbn; [|split; reflexivity].
  rewrite !lookup_map_seq by assumption. split; reflexivity.
Qed.

Lemma new_Linear_inj (n : nat) (v v' : _DLinearModule.values) :
  _DLinearModule.new_Linear n n v = _DLinearModule.new_Linear n n v' -> v = v'.
Proof.
  destruct v as [w b], v' as [w' b']. unfold _DLinearModule.new_Linear.
  cbn [fst snd]. intros H. injection H as -> ->. reflexivity.
Qed.

(** C5. On a window of the configured length and channel count the forward
    pass of a constructed module returns a tensor of the input's shape
    [B, L, C] whose channel c is Linear_Seasonal(seasonal) +
    Linear_Trend(trend) computed with the layers that serve channel c.
    With individual = false there is one shared pair of layers, and two
    channels with equal decomposed series get equal outputs.  With
    individual = true channel c has its own pair: every other module
    constructed for the same window, however it was constructed, that has
    the same pair of layers at channel c gives the same output at channel
    c, whatever the layers of its other channels hold. *)
Theorem forward_applies_linear_maps_per_channel
    (c_in seq_len pred_len : nat) (individual : bool)
    (pretrain : option string)
    (paddle_load : string -> res (gmap string _DLinearModule.Param))
    (th_linear_fill : gmap string _DLinearModule.Param ->
                      gmap string _DLinearModule.Param)
    (sv tv : nat -> _DLinearModule.values) (X : _DLinearModule.batch) :
  let x := _DLinearModule.observed_cov_numeric X in
  d1 x = seq_len -> 1 <= seq_len -> d2 x = c_in ->
  readable pretrain paddle_load ->
  exists self seasonal trend out,
    _DLinearModule.__init__ c_in seq_len pred_len individual pretrain
      paddle_load th_linear_fill sv tv = Ok self /\
    series_decomp.forward (_DLinearModule.decompsition self) x
      = Ok (seasonal, trend) /\
    _DLinearModule.forward self X = Ok (out, x) /\
    shape out = shape x /\
    (forall b l c, b < d0 x -> l < d1 x -> c < d2 x ->
       exists ls lt,
         _DLinearModule.layer_of (_DLinearModule.Linear_Seasonal self) c = Some ls /\
         _DLinearModule.layer_of (_DLinearModule.Linear_Trend self) c = Some lt /\
         get out b l c =
           (affine ls (fun i => get seasonal b i c) l
            + affine lt (fun i => get trend b i c) l)%Qc) /\
    (individual = false ->
       (exists ls lt,
          _DLinearModule.Linear_Seasonal self = _DLinearModule.Single ls /\
          _DLinearModule.Linear_Trend self = _DLinearModule.Single lt) /\
       forall b l c1 c2, b < d0 x -> l < d1 x -> c1 < d2 x -> c2 < d2 x ->
         (forall i, i < d1 x ->
            get seasonal b i c1 = get seasonal b i c2 /\
            get trend b i c1 = get trend b i c2) ->
         get out b l c1 = get out b l c2) /\
    (individual = true ->
       forall (pred_len' : nat) (pretrain' : option string)
              (paddle_load' : string -> res (gmap string _DLinearModule.Param))
              (th_linear_fill' : gmap string _DLinearModule.Param ->
                                 gmap string _DLinearModule.Param)
              (sv' tv' : nat -> _DLinearModule.values)
              (self' : _DLinearModule.t) (c : nat),
         c < d2 x ->
         _DLinearModule.__init__ c_in seq_len pred_len' individual pretrain'
           paddle_load' th_linear_fill' sv' tv' = Ok self' ->
         _DLinearModule.layer_of (_DLinearModule.Linear_Seasonal self') c
           = _DLinearModule.layer_of (_DLinearModule.Linear_Seasonal self) c ->
         _DLinearModule.layer_of (_DLinearModule.Linear_Trend self') c
           = _DLinearModule.layer_of (_DLinearModule.Linear_Trend self) c ->
         exists out',
           _DLinearModule.forward self' X = Ok (out', x) /\
           forall b l, b < d0 x -> l < d1 x ->
             get out' b l c = get out b l c).
Proof.
  intros x HL Hpos HC Hread. subst x.
  destruct (series_decomp_forward_ok 25 (_DLinearModule.observed_cov_numeric X)) as (s & t & Hdec & _ & Hs & Ht & _);
    [lia | reflexivity | lia |].
  destruct (init_ok c_in seq_len pred_len individual pretrain paddle_load
              th_linear_fill sv tv Hpos Hread) as (sv0 & tv0 & Hinit).
  destruct (forward_core c_in seq_len individual sv0 tv0 X s t HL HC Hdec Hs Ht)
    as (out & Hfw & Hshape & Hget).
  exists (built c_in seq_len individual sv0 tv0), s, t, out.
  split; [exact Hinit|].
  split; [exact Hdec|].
  split; [exact Hfw|].
  split; [rewrite Hshape; unfold shape; congruence|].
  split; [|split].
  - intros b l c Hb Hl Hc.
    destruct (layer_of_built c_in seq_len individual sv0 tv0 c) as [Hls Hlt]; [lia|].
    eexists _, _. split; [exact Hls|]. split; [exact Hlt|].
    apply Hget; lia.
  - intros ->. split; [eexists _, _; split; reflexivity|].
    intros b l c1 c2 Hb Hl Hc1 Hc2 Heq.
    rewrite !Hget by lia. unfold affine.
    cbn [_DLinearModule.new_Linear in_features].
    f_equal; (f_equal; apply sumn_ext; intros i Hi;
              destruct (Heq i) as [E1 E2]; [lia|]; congruence).
  - intros -> pred_len' pretrain' paddle_load' th_linear_fill' sv' tv' self' c
           Hc Hinit' Hsame_s Hsame_t.
    apply init_built in Hinit' as (_ & sv1 & tv1 & ->).
    destruct (layer_of_built c_in seq_len true sv0 tv0 c) as [Hls Hlt]; [lia|].
    destruct (layer_of_built c_in seq_len true sv1 tv1 c) as [Hls' Hlt']; [lia|].
    rewrite Hls, Hls' in Hsame_s. rewrite Hlt, Hlt' in Hsame_t.
    assert (sv1 c = sv0 c) as Hsv
      by (apply (new_Linear_inj seq_len); congruence).
    assert (tv1 c = tv0 c) as Htv
      by (apply (new_Linear_inj seq_len); congruence).
    destruct (forward_core c_in seq_len true sv1 tv1 X s t HL HC Hdec Hs Ht)
      as (out' & Hfw' & Hshape' & Hget').
    exists out'. split; [exact Hfw'|].
    intros b l Hb Hl. rewrite Hget', Hget by lia.
    cbv iota. rewrite Hsv, Htv. reflexivity.
Qed.

(** C6. Whatever pred_len is passed to the constructor, the module's
    prediction length is seq_len and its layers map seq_len values to
    seq_len values, so on a window of length L = seq_len the forward pass
    returns an output of length L. *)
Theorem pred_len_is_seq_len
    (c_in seq_len pred_len : nat) (individual : bool)
    (pretrain : option string)
    (paddle_load : string -> res (gmap string _DLinearModule.Param))
    (th_linear_fill : gmap string _DLinearModule.Param ->
                      gmap string _DLinearModule.Param)
    (sv tv : nat -> _DLinearModule.values) (X : _DLinearModule.batch) :
  let x := _DLinearModule.observed_cov_numeric X in
  d1 x = seq_len -> 1 <= seq_len -> d2 x = c_in ->
  readable pretrain paddle_load ->
  exists self out,
    _DLinearModule.__init__ c_in seq_len pred_len individual pretrain
      paddle_load th_linear_fill sv tv = Ok self /\
    _DLinearModule.pred_len self = seq_len /\
    (forall c ls, c < c_in ->
       _DLinearModule.layer_of (_DLinearModule.Linear_Seasonal self) c = Some ls \/
       _DLinearModule.layer_of (_DLinearModule.Linear_Trend self) c = Some ls ->
       in_features ls = seq_len /\ out_features ls = seq_len) /\
    _DLinearModule.forward self X = Ok (out, x) /\
    d1 out = d1 x /\ shape out = shape x.
Proof.
  intros x HL Hpos HC Hread. subst x.
  destruct (series_decomp_forward_ok 25 (_DLinearModule.observed_cov_numeric X)) as (s & t & Hdec & _ & Hs & Ht & _);
    [lia | reflexivity | lia |].
  destruct (init_ok c_in seq_len pred_len individual pretrain paddle_load
              th_linear_fill sv tv Hpos Hread) as (sv0 & tv0 & Hinit).
  destruct (forward_core c_in seq_len individual sv0 tv0 X s t HL HC Hdec Hs Ht)
    as (out & Hfw & Hshape & Hget).
  exists (built c_in seq_len individual sv0 tv0), out.
  split; [exact Hinit|].
  split; [reflexivity|].
  split.
  { intros c ls Hc Hl.
    destruct (layer_of_built c_in seq_len individual sv0 tv0 c Hc) as [Hls Hlt].
    destruct Hl as [Hl|Hl]; [rewrite Hls in Hl|rewrite Hlt in Hl];
      injection Hl as <-; split; reflexivity. }
  split; [exact Hfw|].
  unfold shape in Hshape. injection Hshape as E0 E1 E2.
  split; [congruence|]. unfold shape. congruence.
Qed.

(** ** Construction of the smoother *)

(** A kernel size that is not positive is only noticed when the smoother
    runs, by the tiling operator. *)
Lemma moving_avg_forward_nonpositive_kernel (k s : Z) (x : T3) :
  (k <= 0)%Z ->
  moving_avg.forward (moving_avg.mk k (mkAvgPool1D k s)) x = Err InvalidArgument.
Proof.
  intros Hk. unfold moving_avg.forward, moving_avg.pad, tile1.
  cbn [moving_avg.kernel_size].
  assert ((k - 1) / 2 < 0)%Z as Hneg.
  { apply Z.div_lt_upper_bound; lia. }
  rewrite bool_decide_eq_true_2 by lia. reflexivity.
Qed.

(** C8, as the code has it.  Constructing the smoother never fails: the
    kernel size and the stride are stored as given, whatever their values.
    Every predictor that is constructed holds a smoother with kernel size 25
    and stride 1, and the predictor is constructed for every window length
    of at least 1 (when the parameter file it is given, if any, can be
    read). *)
Theorem moving_avg_init_never_fails (kernel_size stride : Z) :
  moving_avg.__init__ kernel_size stride
    = Ok (moving_avg.mk kernel_size (mkAvgPool1D kernel_size stride)) /\
  (forall c_in seq_len pred_len individual pretrain paddle_load th_linear_fill
          sv tv self,
     _DLinearModule.__init__ c_in seq_len pred_len individual pretrain
       paddle_load th_linear_fill sv tv = Ok self ->
     _DLinearModule.decompsition self
       = series_decomp.mk (moving_avg.mk 25 (mkAvgPool1D 25 1))) /\
  (forall c_in seq_len pred_len individual pretrain paddle_load th_linear_fill
          sv tv,
     1 <= seq_len -> readable pretrain paddle_load ->
     exists self,
       _DLinearModule.__init__ c_in seq_len pred_len individual pretrain
         paddle_load th_linear_fill sv tv = Ok self /\
       _DLinearModule.decompsition self
         = series_decomp.mk (moving_avg.mk 25 (mkAvgPool1D 25 1))).
Proof.
  split; [reflexivity|]. split.
  - intros c_in seq_len pred_len individual pretrain paddle_load th_linear_fill
           sv tv self Hinit.
    apply init_built in Hinit as (_ & sv0 & tv0 & ->). reflexivity.
  - intros c_in seq_len pred_len individual pretrain paddle_load th_linear_fill
           sv tv Hpos Hread.
    destruct (init_ok c_in seq_len pred_len individual pretrain paddle_load
                th_linear_fill sv tv Hpos Hread) as (sv0 & tv0 & Hinit).
    eexists. split; [exact Hinit | reflexivity].
Qed.

(** C8, as stated, fails: the even kernel size 4 and the kernel size 0 are
    accepted by the constructor. *)
Lemma moving_avg_init_accepts_even_and_zero_kernel :
  ~ ((0 < 4)%Z /\ Z.odd 4 = true) /\
  moving_avg.__init__ 4 1 = Ok (moving_avg.mk 4 (mkAvgPool1D 4 1)) /\
  moving_avg.__init__ 4 1 <> Err ConfigurationError /\
  ~ ((0 < 0)%Z /\ Z.odd 0 = true) /\
  moving_avg.__init__ 0 1 = Ok (moving_avg.mk 0 (mkAvgPool1D 0 1)) /\
  moving_avg.__init__ 0 1 <> Err ConfigurationError.
Proof.
  repeat split; try reflexivity; try discriminate.
  - intros [_ H]. discriminate H.
  - intros [H _]. lia.
Qed.

(** ** Runs on concrete data *)

Import Example.

Example smooth_ramp_kernel_3 :
  (y ← moving_avg.forward (moving_avg.mk 3 (mkAvgPool1D 3 1)) ramp;
   Ok (map (map (map this)) (to_list3 y)))
  = Ok [[[4 # 3]; [7 # 3]; [10 # 3]]]%Q.
Proof. vm_compute. reflexivity. Qed.

(** With the even kernel size 4 the output is one step shorter. *)
Example smooth_ramp_kernel_4 :
  (y ← moving_avg.forward (moving_avg.mk 4 (mkAvgPool1D 4 1)) ramp;
   Ok (map (map (map this)) (to_list3 y)))
  = Ok [[[2 # 1]; [11 # 4]]]%Q.
Proof. vm_compute. reflexivity. Qed.

Example score_example :
  (s ← DLinear_AD._get_loss y_pred y_true; Ok (map (map this) (to_list2 s)))
  = Ok [[5 # 2; 2 # 1]]%Q.
Proof. vm_compute. reflexivity. Qed.

Example fit_with_threshold :
  DLinear_AD.fit (Base := base) with_threshold series None false false "O2"
  = Ok (trained, [DLinear_AD.Train]).
Proof. reflexivity. Qed.

Example init_weight_example :
  (r ← _DLinearModule.init_weight (Some "model.pdparams")
         (fun _ => Ok pretrained) (fun d => d) state_dict;
   Ok (snd r))
  = Ok [_DLinearModule.Warning_not_in_pretrained "Linear_Seasonal.bias";
        _DLinearModule.Info_loaded 1 2].
Proof. vm_compute. reflexivity. Qed.

(** No module is constructed for windows of length 0. *)
Example construct_for_empty_window :
  _DLinearModule.__init__ 2 0 5 false None no_file keep sv tv
  = Err AssertionError.
Proof. reflexivity. Qed.

(** A parameter file that cannot be read makes the constructor fail. *)
Example construct_with_missing_file :
  _DLinearModule.__init__ 2 3 5 true (Some "model.pdparams") no_file keep sv tv
  = Err (External "no such file").
Proof. reflexivity. Qed.

(** Constructed with [pretrained], the shared seasonal layer holds the
    weight of the file and keeps the bias it was created with. *)
Example construct_with_pretrained_file :
  (self ← _DLinearModule.__init__ 1 3 3 false (Some "model.pdparams")
            (fun _ => Ok pretrained) keep zero_values zero_values;
   l ← _DLinearModule.call (_DLinearModule.Linear_Seasonal self)
         (of_rows 3 [[q 1; q 0; q 0]]);
   Ok (map (map (map this)) (to_list3 l)))
  = Ok [[[1 # 1; 1 # 1; 1 # 1]]]%Q.
Proof. vm_compute. reflexivity. Qed.

(** C7, at a concrete input.  The detector [with_threshold] has label
    adjustment enabled and a policy that closes one-point gaps.  After fit,
    predict on the scores 9, 0, 9 with threshold 1 returns the raw labels
    1, 0, 1; the policy would have turned them into 1, 1, 1. *)
Lemma predict_returns_raw_labels_when_adjust_enabled :
  DLinear_AD.fit (Base := base) with_threshold series None false false "O2"
    = Ok (trained, [DLinear_AD.Train]) /\
  DLinear_AD._pred_adjust trained = true /\
  DLinear_AD._threshold trained = Some (q 1) /\
  (dl ← DLinear_AD._init_predict_dataloader (AnomalyBaseModel := base)
          trained series (2%Z, 2%Z);
   sc ← DLinear_AD._get_anomaly_score (AnomalyBaseModel := base) trained dl;
   Ok (map this (concat sc))) = Ok [9 # 1; 0 # 1; 9 # 1]%Q /\
  DLinear_AD.predict (Base := base) trained series = Ok [1; 0; 1]%Z /\
  DLinear_AD._pred_adjust_fn trained [1; 0; 1]%Z [q 9; q 0; q 9] (q 1)
    = [1; 1; 1]%Z.
Proof.
  split; [reflexivity|]. split; [reflexivity|]. split; [reflexivity|].
  split; [vm_compute; reflexivity|].
  split; [vm_compute; reflexivity|].
  reflexivity.
Qed.

(** ** The theorems at concrete inputs *)

Lemma get_loss_on_example :
  exists score,
    DLinear_AD._get_loss y_pred y_true = Ok score /\ shape2 score = (1, 2).
Proof.
  destruct (get_loss_is_channel_mean_of_squared_error y_pred y_true)
    as (score & Hrun & Hshape & _).
  - reflexivity.
  - simpl. lia.
  - exists score. split; assumption.
Defined.

Lemma base_fit_keeps_threshold :
  forall s a b c s',
    DLinear_AD._fit (AnomalyBaseModel := base) s a b c = Ok s' ->
    DLinear_AD._threshold s' = DLinear_AD._threshold s.
Proof.
  intros s a b c s' H. cbn in H.
  destruct (DLinear_AD._init_network s no_file keep zero_values zero_values);
    cbn in H; [|discriminate H].
  injection H as <-. reflexivity.
Defined.

Lemma fit_on_example :
  DLinear_AD.fit (Base := base) uncalibrated series None false false "O2"
    = Ok (calibrated, [DLinear_AD.Train; DLinear_AD.Calibrate]) /\
  (exists dl vdl v,
     DLinear_AD._init_fit_dataloaders (AnomalyBaseModel := base)
       after_training series None (Some false) = Ok (Some dl, vdl) /\
     DLinear_AD._threshold_fn after_training
       (DLinear_AD._network after_training) dl vdl
       (DLinear_AD._anomaly_ratio after_training)
       (DLinear_AD._criterion after_training) = Ok v /\
     calibrated = DLinear_AD.set_threshold after_training (Some v)) /\
  DLinear_AD._threshold trained = Some (q 1).
Proof.
  assert (DLinear_AD.fit (Base := base) uncalibrated series None false false
            "O2"
          = Ok (calibrated, [DLinear_AD.Train; DLinear_AD.Calibrate])) as Hrun
    by reflexivity.
  split; [exact Hrun|]. split.
  - destruct (fit_sets_threshold_once (Base := base) uncalibrated series None
                false false "O2" calibrated
                [DLinear_AD.Train; DLinear_AD.Calibrate]
                base_fit_keeps_threshold Hrun)
      as [(a & b & tr & Hl & Hf & Hcal) _].
    change (Ok (Some [window series], None) = Ok (a, b)) in Hl.
    injection Hl as <- <-.
    change (Ok after_training = Ok tr) in Hf. injection Hf as <-.
    change (DLinear_AD._threshold uncalibrated) with (@None Qc) in Hcal.
    cbv iota in Hcal.
    destruct Hcal as (dl & vdl & v & Hl2 & Hfn & Hself & _ & _).
    exists dl, vdl, v. split; [exact Hl2|]. split; [exact Hfn | exact Hself].
  - destruct (fit_sets_threshold_once (Base := base) with_threshold series None
                false false "O2" trained [DLinear_AD.Train]
                base_fit_keeps_threshold eq_refl)
      as [(a & b & tr & _ & _ & Hcal) _].
    change (DLinear_AD._threshold with_threshold) with (Some (q 1)) in Hcal.
    cbv iota in Hcal. destruct Hcal as (_ & Hth & _). exact Hth.
Defined.

Lemma decompose_ramp :
  exists seasonal trend,
    series_decomp.forward
      (series_decomp.mk (moving_avg.mk 25 (mkAvgPool1D 25 1))) ramp
      = Ok (seasonal, trend) /\
    (get seasonal 0 1 0 + get trend 0 1 0)%Qc = q 2.
Proof.
  destruct (series_decomp_forward_sums_to_input 25 ramp)
    as (seasonal & trend & back & _ & Hrun & _ & _ & _ & _ & _ & Hsum).
  - lia.
  - reflexivity.
  - simpl. lia.
  - exists seasonal, trend. split; [exact Hrun|].
    destruct (Hsum 0 1 0) as (_ & H & _); simpl; try lia. exact H.
Defined.

Lemma smooth_ramp :
  exists y,
    moving_avg.forward (moving_avg.mk 3 (mkAvgPool1D 3 1)) ramp = Ok y /\
    shape y = (1, 3, 1).
Proof.
  destruct (moving_avg_forward_pads_and_averages 3 ramp)
    as (p & y & _ & _ & Hrun & _ & _ & _ & _ & Hshape & _).
  - lia.
  - reflexivity.
  - simpl. lia.
  - exists y. split; assumption.
Defined.

Lemma forward_on_pair :
  exists self out,
    _DLinearModule.__init__ 2 3 9 true None no_file keep sv tv = Ok self /\
    _DLinearModule.forward self (_DLinearModule.mkBatch pair) = Ok (out, pair) /\
    shape out = (1, 3, 2) /\
    exists self' out',
      _DLinearModule.__init__ 2 3 9 true None no_file keep sv' tv = Ok self' /\
      _DLinearModule.Linear_Seasonal self' <> _DLinearModule.Linear_Seasonal self /\
      _DLinearModule.forward self' (_DLinearModule.mkBatch pair)
        = Ok (out', pair) /\
      get out' 0 1 0 = get out 0 1 0.
Proof.
  destruct (forward_applies_linear_maps_per_channel 2 3 9 true None no_file
              keep sv tv (_DLinearModule.mkBatch pair))
    as (self & seasonal & trend & out & Hinit & _ & Hrun & Hshape & _ & _ & Hown).
  - reflexivity.
  - lia.
  - reflexivity.
  - intros path Hpath. discriminate Hpath.
  - exists self, out. split; [exact Hinit|]. split; [exact Hrun|].
    split; [exact Hshape|].
    destruct (_DLinearModule.__init__ 2 3 9 true None no_file keep sv' tv)
      as [self'|e] eqn:Hinit'; [|vm_compute in Hinit'; discriminate Hinit'].
    destruct (Hown eq_refl 9 None no_file keep sv' tv self' 0)
      as (out' & Hrun' & Hsame).
    + simpl. lia.
    + exact Hinit'.
    + vm_compute in Hinit, Hinit'.
      injection Hinit as <-. injection Hinit' as <-. reflexivity.
    + vm_compute in Hinit, Hinit'.
      injection Hinit as <-. injection Hinit' as <-. reflexivity.
    + exists self', out'. split; [reflexivity|]. split.
      * vm_compute in Hinit, Hinit'.
        injection Hinit as <-. injection Hinit' as <-.
        intros Heq. injection Heq as Heq.
        apply (f_equal (fun f => this (f 0 0))) in Heq.
        vm_compute in Heq. discriminate Heq.
      * split; [exact Hrun'|]. apply Hsame; simpl; lia.
Defined.

Lemma pred_len_on_pair :
  exists self out,
    _DLinearModule.__init__ 2 3 9 false None no_file keep sv tv = Ok self /\
    _DLinearModule.pred_len self = 3 /\
    _DLinearModule.forward self (_DLinearModule.mkBatch pair) = Ok (out, pair) /\
    d1 out = 3.
Proof.
  destruct (pred_len_is_seq_len 2 3 9 false None no_file keep sv tv
              (_DLinearModule.mkBatch pair))
    as (self & out & Hinit & Hlen & _ & Hrun & Hd1 & _).
  - reflexivity.
  - lia.
  - reflexivity.
  - intros path Hpath. discriminate Hpath.
  - exists self, out. repeat split; assumption.
Defined.


Lemma predict_on_example :
  DLinear_AD.predict (Base := base) trained series = Ok [1; 0; 1]%Z /\
  exists threshold,
    DLinear_AD._threshold trained = Some threshold /\
    length [1; 0; 1]%Z = 3.
Proof.
  assert (DLinear_AD.predict (Base := base) trained series = Ok [1; 0; 1]%Z)
    as Hrun by (vm_compute; reflexivity).
  split; [exact Hrun|].
  destruct (predict_threshold_comparison_is_inclusive (Base := base)
              trained series [1; 0; 1]%Z Hrun)
    as (dl & chunks & threshold & _ & _ & Hth & _ & _).
  exists threshold. split; [exact Hth | reflexivity].
Defined.

(** * Further properties of the code *)

(** ** More on the smoother *)

Lemma Qc_of_nat_S (n : nat) : Qc_of_nat (S n) = (Qc_of_nat n + 1)%Qc.
Proof.
  unfold Qc_of_nat. rewrite Nat2Z.inj_succ, <- Z.add_1_r, Z2Qc_inj_add.
  rewrite Z2Qc_inj_1. reflexivity.
Qed.

Lemma Qc_of_nat_nonzero (n : nat) : 0 < n -> Qc_of_nat n <> 0%Qc.
Proof.
  intros Hn. unfold Qc_of_nat. rewrite <- Z2Qc_inj_0.
  intros H. apply Z2Qc_inj in H. lia.
Qed.

Lemma Qc_of_nat_pos (n : nat) : 0 < n -> (0 < Qc_of_nat n)%Qc.
Proof.
  intros Hn. unfold Qc_of_nat. rewrite <- Z2Qc_inj_0.
  apply (proj1 (Z2Qc_inj_lt 0 (Z.of_nat n))). lia.
Qed.

Lemma sumn_const (n : nat) (v : Qc) :
  sumn n (fun _ => v) = (Qc_of_nat n * v)%Qc.
Proof.
  induction n as [|n IH].
  - cbn [sumn]. change (Qc_of_nat 0) with (Qc_of_Z 0).
    rewrite Z2Qc_inj_0. ring.
  - cbn [sumn]. rewrite IH, Qc_of_nat_S. ring.
Qed.

Lemma sumn_plus (n : nat) (f g : nat -> Qc) :
  sumn n (fun i => (f i + g i)%Qc) = (sumn n f + sumn n g)%Qc.
Proof.
  induction n as [|n IH]; cbn [sumn]; [ring|]. rewrite IH. ring.
Qed.

Lemma sumn_scale (n : nat) (a : Qc) (f : nat -> Qc) :
  sumn n (fun i => (a * f i)%Qc) = (a * sumn n f)%Qc.
Proof.
  induction n as [|n IH]; cbn [sumn]; [ring|]. rewrite IH. ring.
Qed.

Lemma sumn_nonneg (n : nat) (f : nat -> Qc) :
  (forall i, i < n -> (0 <= f i)%Qc) -> (0 <= sumn n f)%Qc.
Proof.
  induction n as [|n IH]; intros H; cbn [sumn].
  - apply Qcle_refl.
  - apply Qcplus_nonneg_nonneg; [apply IH; intros i Hi; apply H; lia|].
    apply H. lia.
Qed.

(** Replicating the ends is reading the input at a clamped index. *)
Lemma padded_clamped (k : Z) (x : T3) (b j c : nat) :
  1 <= d1 x ->
  get (padded k x) b j c
  = get x b (Nat.min (j - Z.to_nat ((k - 1) / 2)) (d1 x - 1)) c.
Proof.
  intros HL. unfold padded. cbn [get].
  set (half := Z.to_nat ((k - 1) / 2)).
  rewrite !Nat.mod_1_r.
  repeat case_bool_decide; f_equal; lia.
Qed.

Lemma sumn_le (n : nat) (f g : nat -> Qc) :
  (forall i, i < n -> (f i <= g i)%Qc) -> (sumn n f <= sumn n g)%Qc.
Proof.
  induction n as [|n IH]; intros H; cbn [sumn].
  - apply Qcle_refl.
  - apply Qcplus_le_compat; [apply IH; intros i Hi; apply H; lia|].
    apply H. lia.
Qed.

(** The output of the smoother in terms of the input alone. *)
Lemma smoothed_clamped (k : Z) (x : T3) (b l c : nat) :
  1 <= d1 x ->
  get (smoothed k x) b l c
  = (sumn (Z.to_nat k)
       (fun j => get x b (Nat.min (l + j - Z.to_nat ((k - 1) / 2)) (d1 x - 1)) c)
     / Qc_of_nat (Z.to_nat k))%Qc.
Proof.
  intros HL. unfold smoothed. cbn [get]. f_equal.
  apply sumn_ext. intros j _. rewrite Nat.mul_1_r.
  apply padded_clamped. assumption.
Qed.

(** X1. For an odd kernel size k >= 3 and a window of length L >= 1, the
    value of the smoother at timestep l is the mean of the k input values at
    the indices l - (k-1)/2, ..., l + (k-1)/2, each clamped to [0, L-1];
    away from the two ends no clamping takes place and the value is the
    plain centred mean. *)
Theorem moving_avg_is_centred_mean_with_clamped_ends (k : Z) (x : T3) :
  (3 <= k)%Z -> Z.odd k = true -> 1 <= d1 x ->
  let half := Z.to_nat ((k - 1) / 2) in
  exists y,
    moving_avg.forward (moving_avg.mk k (mkAvgPool1D k 1)) x = Ok y /\
    (forall b l c,
       get y b l c =
       (sumn (Z.to_nat k)
          (fun j => get x b (Nat.min (l + j - half) (d1 x - 1)) c)
        / Qc_of_nat (Z.to_nat k))%Qc) /\
    (forall b l c, half <= l -> l + half < d1 x ->
       get y b l c =
       (sumn (Z.to_nat k) (fun j => get x b (l - half + j) c)
        / Qc_of_nat (Z.to_nat k))%Qc).
Proof.
  intros Hpos Hodd HL half.
  exists (smoothed k x). split; [apply forward_eq; assumption|].
  split.
  - intros b l c. apply smoothed_clamped. assumption.
  - intros b l c Hlo Hhi. rewrite smoothed_clamped by assumption.
    f_equal. apply sumn_ext. intros j Hj. f_equal.
    pose proof (odd_half k Hodd) as Hk. fold half. unfold half in *. lia.
Qed.

(** X2. Smoothing a sequence that is constant in time (per batch entry and
    channel) returns the same values, for an odd kernel size k >= 3. *)
Theorem moving_avg_fixes_constant_sequences (k : Z) (x : T3) :
  (3 <= k)%Z -> Z.odd k = true -> 1 <= d1 x ->
  (forall b l c, l < d1 x -> get x b l c = get x b 0 c) ->
  exists y,
    moving_avg.forward (moving_avg.mk k (mkAvgPool1D k 1)) x = Ok y /\
    shape y = shape x /\
    forall b l c, l < d1 x -> get y b l c = get x b l c.
Proof.
  intros Hpos Hodd HL Hconst.
  exists (smoothed k x). split; [apply forward_eq; assumption|].
  split; [reflexivity|].
  intros b l c Hl. rewrite smoothed_clamped by assumption.
  rewrite (sumn_ext _ _ (fun _ => get x b 0 c))
    by (intros j _; apply Hconst; lia).
  rewrite sumn_const, (Hconst b l c Hl).
  field. apply Qc_of_nat_nonzero. lia.
Qed.

(** X3. The smoother (odd kernel size k >= 3) works on each (batch entry,
    channel) series on its own: two windows of one length that agree on the
    series (b, c) have the same smoothed series (b, c). *)
Theorem moving_avg_is_per_series (k : Z) (x x' : T3) (b c : nat) :
  (3 <= k)%Z -> Z.odd k = true -> 1 <= d1 x -> d1 x' = d1 x ->
  (forall l, l < d1 x -> get x' b l c = get x b l c) ->
  exists y y',
    moving_avg.forward (moving_avg.mk k (mkAvgPool1D k 1)) x = Ok y /\
    moving_avg.forward (moving_avg.mk k (mkAvgPool1D k 1)) x' = Ok y' /\
    forall l, get y' b l c = get y b l c.
Proof.
  intros Hpos Hodd HL Hlen Hagree.
  exists (smoothed k x), (smoothed k x').
  split; [apply forward_eq; assumption|].
  split; [apply forward_eq; [assumption|assumption|lia]|].
  intros l. rewrite !smoothed_clamped by lia. rewrite Hlen.
  f_equal. apply sumn_ext. intros j _. apply Hagree. lia.
Qed.

(** X4. The smoother (odd kernel size k >= 3) is linear: if a series z is
    a * x + x' at every timestep, then its smoothed series is
    a * smooth(x) + smooth(x'). *)
Theorem moving_avg_is_linear (k : Z) (a : Qc) (x x' z : T3) (b c : nat) :
  (3 <= k)%Z -> Z.odd k = true -> 1 <= d1 x ->
  d1 x' = d1 x -> d1 z = d1 x ->
  (forall l, l < d1 x -> get z b l c = (a * get x b l c + get x' b l c)%Qc) ->
  exists y y' yz,
    moving_avg.forward (moving_avg.mk k (mkAvgPool1D k 1)) x = Ok y /\
    moving_avg.forward (moving_avg.mk k (mkAvgPool1D k 1)) x' = Ok y' /\
    moving_avg.forward (moving_avg.mk k (mkAvgPool1D k 1)) z = Ok yz /\
    forall l, get yz b l c = (a * get y b l c + get y' b l c)%Qc.
Proof.
  intros Hpos Hodd HL Hx' Hz Hcomb.
  exists (smoothed k x), (smoothed k x'), (smoothed k z).
  split; [apply forward_eq; assumption|].
  split; [apply forward_eq; [assumption|assumption|lia]|].
  split; [apply forward_eq; [assumption|assumption|lia]|].
  intros l. rewrite !smoothed_clamped by lia. rewrite Hx', Hz.
  rewrite (sumn_ext _ _
    (fun j => (a * get x b (Nat.min (l + j - Z.to_nat ((k - 1) / 2)) (d1 x - 1)) c
               + get x' b (Nat.min (l + j - Z.to_nat ((k - 1) / 2)) (d1 x - 1)) c)%Qc))
    by (intros j _; apply Hcomb; lia).
  rewrite sumn_plus, sumn_scale. unfold Qcdiv. ring.
Qed.

(** X5. The smoothed values (odd kernel size k >= 3) stay within the range
    of the input: bounds on a (batch entry, channel) series are bounds on
    its smoothed series. *)
Theorem moving_avg_stays_within_bounds (k : Z) (x : T3) (b c : nat) (lo hi : Qc) :
  (3 <= k)%Z -> Z.odd k = true -> 1 <= d1 x ->
  (forall l, l < d1 x -> (lo <= get x b l c)%Qc /\ (get x b l c <= hi)%Qc) ->
  exists y,
    moving_avg.forward (moving_avg.mk k (mkAvgPool1D k 1)) x = Ok y /\
    forall l, (lo <= get y b l c)%Qc /\ (get y b l c <= hi)%Qc.
Proof.
  intros Hpos Hodd HL Hb.
  exists (smoothed k x). split; [apply forward_eq; assumption|].
  intros l. rewrite smoothed_clamped by assumption.
  set (n := Z.to_nat k).
  assert (0 < n) as Hn by (unfold n; lia).
  pose proof (Qc_of_nat_pos n Hn) as Hnpos.
  pose proof (Qc_of_nat_nonzero n Hn) as Hnz.
  pose proof (Qcinv_pos _ Hnpos) as Hinv.
  assert (forall v : Qc, v = (sumn n (fun _ => v) / Qc_of_nat n)%Qc) as Hmean.
  { intros v. rewrite sumn_const. field. assumption. }
  split.
  - rewrite (Hmean lo) at 1. unfold Qcdiv.
    apply Qcmult_le_mono_nonneg_r; [apply Qclt_le_weak; assumption|].
    apply sumn_le. intros j _. apply Hb. lia.
  - rewrite (Hmean hi) at 1. unfold Qcdiv.
    apply Qcmult_le_mono_nonneg_r; [apply Qclt_le_weak; assumption|].
    apply sumn_le. intros j _. apply Hb. lia.
Qed.

Lemma even_half (k : Z) : Z.even k = true -> (k = 2 * ((k - 1) / 2) + 2)%Z.
Proof.
  intros Heven. pose proof (Zmod_even k) as Hm. rewrite Heven in Hm.
  pose proof (Z.div_mod k 2 ltac:(lia)) as Hk.
  assert (((k - 1) / 2) = k / 2 - 1)%Z as ->; [|lia].
  symmetry. apply (Z.div_unique (k - 1) 2 (k / 2 - 1) 1); lia.
Qed.

(** X6. With an even kernel size k >= 4 the two pads together are one step
    short of k - 1: the smoother returns L - 1 timesteps for a window of
    length L >= 2, and raises for a window of length 1. *)
Theorem moving_avg_even_kernel_loses_one_step (k : Z) (x : T3) :
  (4 <= k)%Z -> Z.even k = true -> 1 <= d1 x ->
  (d1 x = 1 ->
   moving_avg.forward (moving_avg.mk k (mkAvgPool1D k 1)) x
   = Err InvalidArgument) /\
  (2 <= d1 x ->
   exists y,
     moving_avg.forward (moving_avg.mk k (mkAvgPool1D k 1)) x = Ok y /\
     shape y = (d0 x, d1 x - 1, d2 x)).
Proof.
  intros Hbig Heven HL.
  pose proof (even_half k Heven) as Hk.
  assert (0 <= (k - 1) / 2)%Z as Hh by (apply Z.div_pos; lia).
  assert (d1 (padded k x) = d1 x + Z.to_nat k - 2) as Hlen.
  { unfold padded. cbn [d1]. lia. }
  unfold moving_avg.forward. rewrite pad_eq by (assumption || lia).
  unfold AvgPool1D_forward.
  cbn -[Nat.modulo Nat.mul Nat.div Z.div padded].
  rewrite (bool_decide_eq_true_2 (0 < k /\ 0 < 1)%Z) by lia.
  split.
  - intros H1. rewrite bool_decide_eq_false_2 by lia. reflexivity.
  - intros H2. rewrite bool_decide_eq_true_2 by lia.
    eexists. split; [reflexivity|].
    unfold shape. cbn -[Nat.modulo Nat.mul Nat.div Z.div padded].
    replace (Z.to_nat 1) with 1 by lia. rewrite Hlen, Nat.div_1_r.
    f_equal. f_equal. lia.
Qed.

(** X7. The smoother raises on an empty window (L = 0), whatever its kernel
    size and stride. *)
Theorem moving_avg_rejects_empty_window (self : moving_avg.t) (x : T3) :
  d1 x = 0 -> moving_avg.forward self x = Err InvalidArgument.
Proof.
  intros HL. unfold moving_avg.forward, moving_avg.pad, tile1.
  case_bool_decide; [reflexivity|].
  unfold concat1, cat1, AvgPool1D_forward.
  cbn -[Nat.min Nat.modulo Nat.mul Nat.div Z.div].
  rewrite (bool_decide_eq_true_2 (d0 x = d0 x /\ d2 x = d2 x)) by done.
  cbn -[Nat.min Nat.modulo Nat.mul Nat.div Z.div].
  rewrite (bool_decide_eq_true_2 (d0 x = d0 x /\ d2 x = d2 x)) by done.
  cbn -[Nat.min Nat.modulo Nat.mul Nat.div Z.div].
  case_bool_decide; [|reflexivity].
  rewrite bool_decide_eq_false_2; [reflexivity|].
  rewrite HL. lia.
Qed.

(** ** More on the decomposer *)

Lemma smoothed_constant (k : Z) (x : T3) (b l c : nat) :
  (0 < k)%Z -> 1 <= d1 x ->
  (forall l', l' < d1 x -> get x b l' c = get x b 0 c) ->
  get (smoothed k x) b l c = get x b 0 c.
Proof.
  intros Hpos HL Hconst. rewrite smoothed_clamped by assumption.
  rewrite (sumn_ext _ _ (fun _ => get x b 0 c))
    by (intros j _; apply Hconst; lia).
  rewrite sumn_const. field. apply Qc_of_nat_nonzero. lia.
Qed.

(** X8. A sequence that is constant in time is all trend: the decomposer
    (odd kernel size k >= 3) returns the sequence itself as trend and zero
    as seasonal part. *)
Theorem series_decomp_of_constant_sequence (k : Z) (x : T3) :
  (3 <= k)%Z -> Z.odd k = true -> 1 <= d1 x ->
  (forall b l c, l < d1 x -> get x b l c = get x b 0 c) ->
  exists seasonal trend,
    series_decomp.forward
      (series_decomp.mk (moving_avg.mk k (mkAvgPool1D k 1))) x
      = Ok (seasonal, trend) /\
    forall b l c, b < d0 x -> l < d1 x -> c < d2 x ->
      get trend b l c = get x b l c /\ get seasonal b l c = 0%Qc.
Proof.
  intros Hpos Hodd HL Hconst.
  destruct (series_decomp_forward_ok k x Hpos Hodd HL)
    as (s & t & Hrun & Hma & _ & _ & Hget).
  cbn [series_decomp.moving_avg] in Hma.
  rewrite forward_eq in Hma by assumption. injection Hma as <-.
  exists s, (smoothed k x). split; [exact Hrun|].
  intros b l c Hb Hl Hc.
  assert (get (smoothed k x) b l c = get x b l c) as Ht.
  { rewrite (Hconst b l c Hl). apply smoothed_constant; [lia|assumption|].
    intros l' Hl'. apply Hconst. assumption. }
  split; [exact Ht|]. rewrite Hget by assumption. rewrite Ht. ring.
Qed.

(** X9. With an even kernel size the decomposer raises on a window of
    length L >= 3: the smoothed sequence has L - 1 timesteps and cannot be
    subtracted from the input. *)
Theorem series_decomp_even_kernel_raises (k : Z) (x : T3) :
  (0 < k)%Z -> Z.even k = true -> 3 <= d1 x ->
  series_decomp.forward
    (series_decomp.mk (moving_avg.mk k (mkAvgPool1D k 1))) x
  = Err InvalidArgument.
Proof.
  intros Hpos Heven HL.
  pose proof (even_half k Heven) as Hk.
  assert (0 <= (k - 1) / 2)%Z as Hh by (apply Z.div_pos; lia).
  destruct (decide (k = 2%Z)) as [->|Hne].
  { (* both repeat counts are 0: the tiling raises *) reflexivity. }
  assert (4 <= k)%Z as Hbig by lia.
  assert (d1 (padded k x) = d1 x + Z.to_nat k - 2) as Hlen.
  { unfold padded. cbn [d1]. lia. }
  unfold series_decomp.forward, moving_avg.forward.
  cbn [series_decomp.moving_avg].
  rewrite pad_eq by (assumption || lia).
  unfold AvgPool1D_forward.
  cbn -[Nat.modulo Nat.mul Nat.div Z.div padded sub].
  rewrite (bool_decide_eq_true_2 (0 < k /\ 0 < 1)%Z) by lia.
  rewrite bool_decide_eq_true_2 by lia.
  cbn -[Nat.modulo Nat.mul Nat.div Z.div padded sub].
  unfold sub, elementwise.
  cbn -[Nat.modulo Nat.mul Nat.div Z.div padded bdim].
  rewrite bdim_same.
  replace (Z.to_nat 1) with 1 by lia. rewrite Hlen, Nat.div_1_r.
  assert (bdim (d1 x) (d1 x + Z.to_nat k - 2 - Z.to_nat k + 1) = None) as ->.
  { unfold bdim. rewrite !bool_decide_eq_false_2 by lia. reflexivity. }
  reflexivity.
Qed.

(** ** More on the predictor *)

Lemma for_range_app {A} (body : A -> nat -> res A) (acc : A) (l1 l2 : list nat) :
  _DLinearModule.for_range body acc (l1 ++ l2)
  = (acc' ← _DLinearModule.for_range body acc l1;
     _DLinearModule.for_range body acc' l2).
Proof.
  revert acc. induction l1 as [|i l1 IH]; intros acc; [reflexivity|].
  cbn [app _DLinearModule.for_range].
  destruct (body acc i) as [acc1|e]; cbn [mbind res_bind]; [apply IH|reflexivity].
Qed.

Section PerChannelLoopAnyWidth.
Import _DLinearModule.
Variables (c_in seq_len : nat) (sv tv : nat -> values).
Variables (si ti : T3).
Hypothesis si_len : d2 si = seq_len.
Hypothesis ti_shape : shape ti = shape si.

Let self := built c_in seq_len true sv tv.
Let layer (v : nat -> values) (i : nat) := new_Linear seq_len seq_len (v i).

(** The accumulators have the shape [B, C, L] of the transposed input. *)
Let wide_ok (acc : T3 * T3) : Prop :=
  shape (fst acc) = (d0 si, d1 si, seq_len) /\
  shape (snd acc) = (d0 si, d1 si, seq_len).

Lemma channel_step_wide (acc : T3 * T3) (i : nat) :
  wide_ok acc -> i < c_in -> i < d1 si ->
  exists acc',
    channel_step self si ti acc i = Ok acc' /\ wide_ok acc' /\
    forall b c j,
      get (fst acc') b c j =
        (if bool_decide (c = i)
         then affine (layer sv i) (fun l => get si b i l) j
         else get (fst acc) b c j) /\
      get (snd acc') b c j =
        (if bool_decide (c = i)
         then affine (layer tv i) (fun l => get ti b i l) j
         else get (snd acc) b c j).
Proof.
  destruct acc as [so to]. intros [Hso Hto] Hi Hi'.
  unfold shape in Hso, Hto, ti_shape. cbn [fst snd] in Hso, Hto.
  injection Hso as S0 S1 S2. injection Hto as T0 T1 T2.
  injection ti_shape as U0 U1 U2.
  unfold channel_step, self, built, item, select1, Linear_forward2, set1.
  cbn [Linear_Seasonal Linear_Trend].
  rewrite !lookup_map_seq by assumption.
  cbn [mbind res_bind].
  rewrite (bool_decide_eq_true_2 (i < d1 si)) by lia.
  cbn [mbind res_bind r0 r1 new_Linear in_features out_features].
  rewrite (bool_decide_eq_true_2 (d2 si = seq_len)) by lia.
  cbn [mbind res_bind r0 r1].
  rewrite (bool_decide_eq_true_2 (i < d1 so)) by lia.
  rewrite (bool_decide_eq_true_2 (d0 si = d0 so /\ seq_len = d2 so))
    by (split; congruence).
  cbn [mbind res_bind].
  rewrite (bool_decide_eq_true_2 (i < d1 ti)) by lia.
  cbn [mbind res_bind r0 r1].
  rewrite (bool_decide_eq_true_2 (d2 ti = seq_len)) by lia.
  cbn [mbind res_bind r0 r1].
  rewrite (bool_decide_eq_true_2 (i < d1 to)) by lia.
  rewrite (bool_decide_eq_true_2 (d0 ti = d0 to /\ seq_len = d2 to))
    by (split; congruence).
  cbn [mbind res_bind].
  eexists. split; [reflexivity|]. split.
  { unfold wide_ok, shape. cbn [fst snd d0 d1 d2]. split; congruence. }
  intros b c j. cbn [fst snd get get2]. split; reflexivity.
Qed.

Lemma channel_loop_wide (n : nat) : forall (a : nat) (acc : T3 * T3),
  wide_ok acc -> a + n <= c_in -> a + n <= d1 si ->
  exists acc',
    for_range (channel_step self si ti) acc (seq a n) = Ok acc' /\
    wide_ok acc' /\
    forall b c j,
      get (fst acc') b c j =
        (if bool_decide (a <= c < a + n)
         then affine (layer sv c) (fun l => get si b c l) j
         else get (fst acc) b c j) /\
      get (snd acc') b c j =
        (if bool_decide (a <= c < a + n)
         then affine (layer tv c) (fun l => get ti b c l) j
         else get (snd acc) b c j).
Proof.
  induction n as [|n IH]; intros a acc Hacc Han Han'.
  - exists acc. split; [reflexivity|]. split; [assumption|].
    intros b c j. rewrite bool_decide_eq_false_2 by lia. split; reflexivity.
  - destruct (channel_step_wide acc a Hacc) as (acc1 & Hstep & Hacc1 & Hget1);
      [lia|lia|].
    destruct (IH (S a) acc1 Hacc1) as (acc' & Hloop & Hacc' & Hget); [lia|lia|].
    exists acc'. split.
    { cbn [seq for_range]. rewrite Hstep. exact Hloop. }
    split; [assumption|].
    intros b c j. destruct (Hget b c j) as [Hs Ht].
    destruct (Hget1 b c j) as [Hs1 Ht1].
    rewrite Hs, Ht, Hs1, Ht1.
    destruct (decide (c = a)) as [->|Hne].
    + rewrite (bool_decide_eq_false_2 (S a <= a < S a + n)) by lia.
      rewrite (bool_decide_eq_true_2 (a = a)) by reflexivity.
      rewrite (bool_decide_eq_true_2 (a <= a < a + S n)) by lia.
      split; reflexivity.
    + rewrite (bool_decide_eq_false_2 (c = a)) by assumption.
      rewrite (bool_decide_ext (S a <= c < S a + n) (a <= c < a + S n)) by lia.
      split; reflexivity.
Qed.

(** A channel index past the data raises. *)
Lemma channel_step_past_data (acc : T3 * T3) (i : nat) :
  i < c_in -> d1 si <= i ->
  channel_step self si ti acc i = Err IndexError.
Proof.
  destruct acc as [so to]. intros Hi Hi'.
  unfold channel_step, self, built, item, select1.
  cbn [Linear_Seasonal Linear_Trend].
  rewrite !lookup_map_seq by assumption.
  cbn [mbind res_bind].
  rewrite (bool_decide_eq_false_2 (i < d1 si)) by lia.
  reflexivity.
Qed.

End PerChannelLoopAnyWidth.

(** X10. For a module constructed for windows of seq_len >= 1 timesteps, a
    window whose length differs from seq_len makes the forward pass raise,
    in the first linear layer it reaches (shared layers, or per-channel
    layers with at least one configured channel and one data channel). *)
Theorem forward_wrong_window_length_raises
    (c_in seq_len pred_len : nat) (individual : bool)
    (pretrain : option string)
    (paddle_load : string -> res (gmap string _DLinearModule.Param))
    (th_linear_fill : gmap string _DLinearModule.Param ->
                      gmap string _DLinearModule.Param)
    (sv tv : nat -> _DLinearModule.values) (X : _DLinearModule.batch) :
  let x := _DLinearModule.observed_cov_numeric X in
  1 <= seq_len -> 1 <= d1 x -> d1 x <> seq_len ->
  individual = false \/ (1 <= c_in /\ 1 <= d2 x) ->
  readable pretrain paddle_load ->
  exists self,
    _DLinearModule.__init__ c_in seq_len pred_len individual pretrain
      paddle_load th_linear_fill sv tv = Ok self /\
    _DLinearModule.forward self X = Err InvalidArgument.
Proof.
  intros x Hpos HL Hne Hcase Hread. subst x.
  destruct (series_decomp_forward_ok 25 (_DLinearModule.observed_cov_numeric X))
    as (s & t & Hdec & _ & Hs & Ht & _); [lia | reflexivity | lia |].
  unfold shape in Hs, Ht. injection Hs as S0 S1 S2. injection Ht as T0 T1 T2.
  destruct (init_ok c_in seq_len pred_len individual pretrain paddle_load
              th_linear_fill sv tv Hpos Hread) as (sv0 & tv0 & Hinit).
  rewrite Hinit. clear Hinit Hread sv tv. rename sv0 into sv, tv0 into tv.
  exists (built c_in seq_len individual sv tv). split; [reflexivity|].
  unfold _DLinearModule.forward.
  change (_DLinearModule.decompsition (built c_in seq_len individual sv tv))
    with (series_decomp.mk (moving_avg.mk 25 (mkAvgPool1D 25 1))).
  rewrite Hdec. cbn [mbind res_bind].
  destruct individual.
  - destruct Hcase as [Hcase|[Hc HC]]; [discriminate Hcase|].
    change (_DLinearModule.individual (built c_in seq_len true sv tv)) with true.
    change (_DLinearModule.channels (built c_in seq_len true sv tv)) with c_in.
    cbv iota.
    destruct c_in as [|n]; [lia|].
    cbn [seq _DLinearModule.for_range].
    unfold _DLinearModule.channel_step, built, _DLinearModule.item, select1,
      Linear_forward2.
    cbn [_DLinearModule.Linear_Seasonal].
    rewrite lookup_map_seq by lia.
    cbn [mbind res_bind transpose021 d1 d2].
    rewrite (bool_decide_eq_true_2 (0 < d2 s)) by lia.
    cbn [mbind res_bind r1 _DLinearModule.new_Linear in_features].
    rewrite (bool_decide_eq_false_2 (d1 s = seq_len)) by congruence.
    reflexivity.
  - cbn [_DLinearModule.individual _DLinearModule.Linear_Seasonal
         _DLinearModule.call built].
    unfold Linear_forward3.
    cbn [transpose021 d2 _DLinearModule.new_Linear in_features].
    rewrite (bool_decide_eq_false_2 (d1 s = seq_len)) by congruence.
    reflexivity.
Qed.

(** The forward pass with per-channel layers when the data has at least as
    many channels as the module was configured for. *)
Lemma forward_individual_wide (c_in seq_len : nat)
    (sv tv : nat -> _DLinearModule.values) (X : _DLinearModule.batch) :
  let x := _DLinearModule.observed_cov_numeric X in
  d1 x = seq_len -> 1 <= seq_len -> c_in <= d2 x ->
  exists seasonal trend out,
    series_decomp.forward
      (series_decomp.mk (moving_avg.mk 25 (mkAvgPool1D 25 1))) x
      = Ok (seasonal, trend) /\
    _DLinearModule.forward (built c_in seq_len true sv tv) X = Ok (out, x) /\
    shape out = shape x /\
    forall b l c, b < d0 x -> l < d1 x -> c < d2 x ->
      get out b l c =
      if bool_decide (c < c_in)
      then (affine (_DLinearModule.new_Linear seq_len seq_len (sv c))
                   (fun i => get seasonal b i c) l
            + affine (_DLinearModule.new_Linear seq_len seq_len (tv c))
                     (fun i => get trend b i c) l)%Qc
      else 0%Qc.
Proof.
  intros x HL Hpos HC. subst x.
  destruct (series_decomp_forward_ok 25 (_DLinearModule.observed_cov_numeric X))
    as (s & t & Hdec & _ & Hs & Ht & _); [lia | reflexivity | lia |].
  exists s, t.
  unfold shape in Hs, Ht. injection Hs as S0 S1 S2. injection Ht as T0 T1 T2.
  unfold _DLinearModule.forward.
  change (_DLinearModule.decompsition (built c_in seq_len true sv tv))
    with (series_decomp.mk (moving_avg.mk 25 (mkAvgPool1D 25 1))).
  rewrite Hdec. cbn [mbind res_bind].
  change (_DLinearModule.individual (built c_in seq_len true sv tv)) with true.
  change (_DLinearModule.pred_len (built c_in seq_len true sv tv)) with seq_len.
  change (_DLinearModule.channels (built c_in seq_len true sv tv)) with c_in.
  cbv iota.
  destruct (channel_loop_wide c_in seq_len sv tv
              (transpose021 s) (transpose021 t)) with
    (n := c_in) (a := 0)
    (acc := (zeros (d0 (transpose021 s)) (d1 (transpose021 s)) seq_len,
             zeros (d0 (transpose021 t)) (d1 (transpose021 t)) seq_len))
    as ([so to] & Hloop & [Hso Hto] & Hget).
  { cbn [transpose021 d2]. congruence. }
  { unfold shape. cbn [transpose021 d0 d1 d2]. congruence. }
  { unfold shape. cbn [fst snd zeros transpose021 d0 d1 d2].
    split; congruence. }
  { lia. }
  { cbn [transpose021 d1]. lia. }
  rewrite Hloop. cbn [mbind res_bind fst snd] in *.
  destruct (elementwise_same_shape Qcplus so to) as (r & Hadd & Hr & Hrget);
    [congruence|].
  unfold add. rewrite Hadd. cbn [mbind res_bind].
  eexists. split; [reflexivity|]. split; [reflexivity|].
  unfold shape in Hso, Hr. cbn [transpose021 d0 d1] in Hso.
  injection Hso as A0 A1 A2.
  rewrite A0, A1, A2 in Hr. injection Hr as R0 R1 R2.
  split.
  { unfold shape. cbn [transpose021 d0 d1 d2]. congruence. }
  intros b l c Hb Hl Hc. cbn [transpose021 get].
  rewrite Hrget by lia.
  destruct (Hget b c l) as [-> ->].
  rewrite (bool_decide_ext (0 <= c < 0 + c_in) (c < c_in)) by lia.
  case_bool_decide; [reflexivity|]. cbn [zeros get]. ring.
Qed.

(** X11. With per-channel layers and data that has more channels than the
    module was configured for, the forward pass does not raise: it returns
    the input's shape, with every channel from c_in onwards equal to zero. *)
Theorem forward_individual_leaves_extra_channels_zero
    (c_in seq_len pred_len : nat)
    (pretrain : option string)
    (paddle_load : string -> res (gmap string _DLinearModule.Param))
    (th_linear_fill : gmap string _DLinearModule.Param ->
                      gmap string _DLinearModule.Param)
    (sv tv : nat -> _DLinearModule.values) (X : _DLinearModule.batch) :
  let x := _DLinearModule.observed_cov_numeric X in
  d1 x = seq_len -> 1 <= seq_len -> c_in <= d2 x ->
  readable pretrain paddle_load ->
  exists self out,
    _DLinearModule.__init__ c_in seq_len pred_len true pretrain
      paddle_load th_linear_fill sv tv = Ok self /\
    _DLinearModule.forward self X = Ok (out, x) /\
    shape out = shape x /\
    forall b l c, b < d0 x -> l < d1 x -> c_in <= c -> c < d2 x ->
      get out b l c = 0%Qc.
Proof.
  intros x HL Hpos HC Hread. subst x.
  destruct (init_ok c_in seq_len pred_len true pretrain paddle_load
              th_linear_fill sv tv Hpos Hread) as (sv0 & tv0 & Hinit).
  destruct (forward_individual_wide c_in seq_len sv0 tv0 X HL Hpos HC)
    as (s & t & out & _ & Hrun & Hshape & Hget).
  exists (built c_in seq_len true sv0 tv0), out.
  split; [exact Hinit|]. split; [exact Hrun|]. split; [exact Hshape|].
  intros b l c Hb Hl Hlo Hc. rewrite Hget by assumption.
  rewrite bool_decide_eq_false_2 by lia. reflexivity.
Qed.

(** X12. With per-channel layers and data that has fewer channels than the
    module was configured for, the forward pass raises IndexError when the
    loop reaches the first channel the data lacks. *)
Theorem forward_individual_missing_channel_raises
    (c_in seq_len pred_len : nat)
    (pretrain : option string)
    (paddle_load : string -> res (gmap string _DLinearModule.Param))
    (th_linear_fill : gmap string _DLinearModule.Param ->
                      gmap string _DLinearModule.Param)
    (sv tv : nat -> _DLinearModule.values) (X : _DLinearModule.batch) :
  let x := _DLinearModule.observed_cov_numeric X in
  d1 x = seq_len -> 1 <= seq_len -> d2 x < c_in ->
  readable pretrain paddle_load ->
  exists self,
    _DLinearModule.__init__ c_in seq_len pred_len true pretrain
      paddle_load th_linear_fill sv tv = Ok self /\
    _DLinearModule.forward self X = Err IndexError.
Proof.
  intros x HL Hpos HC Hread. subst x.
  destruct (series_decomp_forward_ok 25 (_DLinearModule.observed_cov_numeric X))
    as (s & t & Hdec & _ & Hs & Ht & _); [lia | reflexivity | lia |].
  unfold shape in Hs, Ht. injection Hs as S0 S1 S2. injection Ht as T0 T1 T2.
  destruct (init_ok c_in seq_len pred_len true pretrain paddle_load
              th_linear_fill sv tv Hpos Hread) as (sv0 & tv0 & Hinit).
  rewrite Hinit. clear Hinit Hread sv tv. rename sv0 into sv, tv0 into tv.
  exists (built c_in seq_len true sv tv). split; [reflexivity|].
  unfold _DLinearModule.forward.
  change (_DLinearModule.decompsition (built c_in seq_len true sv tv))
    with (series_decomp.mk (moving_avg.mk 25 (mkAvgPool1D 25 1))).
  rewrite Hdec. cbn [mbind res_bind].
  change (_DLinearModule.individual (built c_in seq_len true sv tv)) with true.
  change (_DLinearModule.pred_len (built c_in seq_len true sv tv)) with seq_len.
  change (_DLinearModule.channels (built c_in seq_len true sv tv)) with c_in.
  cbv iota.
  set (C := d2 (_DLinearModule.observed_cov_numeric X)) in *.
  replace c_in with (C + S (c_in - C - 1)) at 2 by lia.
  rewrite seq_app, for_range_app.
  destruct (channel_loop_wide c_in seq_len sv tv
              (transpose021 s) (transpose021 t)) with
    (n := C) (a := 0)
    (acc := (zeros (d0 (transpose021 s)) (d1 (transpose021 s)) seq_len,
             zeros (d0 (transpose021 t)) (d1 (transpose021 t)) seq_len))
    as (acc & Hloop & _ & _).
  { cbn [transpose021 d2]. congruence. }
  { unfold shape. cbn [transpose021 d0 d1 d2]. congruence. }
  { unfold shape. cbn [fst snd zeros transpose021 d0 d1 d2].
    split; congruence. }
  { lia. }
  { cbn [transpose021 d1]. lia. }
  rewrite Hloop. cbn [mbind res_bind seq _DLinearModule.for_range].
  rewrite channel_step_past_data; [reflexivity | | lia |].
  - cbn [transpose021 d2]. congruence.
  - cbn [transpose021 d1]. lia.
Qed.

(** X13. With shared layers the configured channel count is not consulted:
    the forward pass accepts a window with any number of channels and
    applies the one pair of layers the module holds to each of them. *)
Theorem forward_shared_ignores_channel_count
    (c_in seq_len pred_len : nat)
    (pretrain : option string)
    (paddle_load : string -> res (gmap string _DLinearModule.Param))
    (th_linear_fill : gmap string _DLinearModule.Param ->
                      gmap string _DLinearModule.Param)
    (sv tv : nat -> _DLinearModule.values) (X : _DLinearModule.batch) :
  let x := _DLinearModule.observed_cov_numeric X in
  d1 x = seq_len -> 1 <= seq_len ->
  readable pretrain paddle_load ->
  exists self seasonal trend out ls lt,
    _DLinearModule.__init__ c_in seq_len pred_len false pretrain
      paddle_load th_linear_fill sv tv = Ok self /\
    _DLinearModule.Linear_Seasonal self = _DLinearModule.Single ls /\
    _DLinearModule.Linear_Trend self = _DLinearModule.Single lt /\
    (in_features ls, out_features ls) = (seq_len, seq_len) /\
    (in_features lt, out_features lt) = (seq_len, seq_len) /\
    series_decomp.forward (_DLinearModule.decompsition self) x
      = Ok (seasonal, trend) /\
    _DLinearModule.forward self X = Ok (out, x) /\
    shape out = shape x /\
    forall b l c, b < d0 x -> l < d1 x -> c < d2 x ->
      get out b l c =
      (affine ls (fun i => get seasonal b i c) l
       + affine lt (fun i => get trend b i c) l)%Qc.
Proof.
  intros x HL Hpos Hread. subst x.
  destruct (series_decomp_forward_ok 25 (_DLinearModule.observed_cov_numeric X))
    as (s & t & Hdec & _ & Hs & Ht & _); [lia | reflexivity | lia |].
  destruct (init_ok c_in seq_len pred_len false pretrain paddle_load
              th_linear_fill sv tv Hpos Hread) as (sv0 & tv0 & Hinit).
  rewrite Hinit. clear Hinit Hread sv tv. rename sv0 into sv, tv0 into tv.
  exists (built c_in seq_len false sv tv), s, t.
  unfold shape in Hs, Ht. injection Hs as S0 S1 S2. injection Ht as T0 T1 T2.
  unfold _DLinearModule.forward.
  change (_DLinearModule.decompsition (built c_in seq_len false sv tv))
    with (series_decomp.mk (moving_avg.mk 25 (mkAvgPool1D 25 1))).
  rewrite Hdec. cbn [mbind res_bind].
  cbn [_DLinearModule.individual _DLinearModule.Linear_Seasonal
       _DLinearModule.Linear_Trend _DLinearModule.call built].
  unfold Linear_forward3.
  cbn [transpose021 d2 _DLinearModule.new_Linear in_features out_features].
  rewrite (bool_decide_eq_true_2 (d1 s = seq_len)) by congruence.
  rewrite (bool_decide_eq_true_2 (d1 t = seq_len)) by congruence.
  cbn [mbind res_bind].
  match goal with
  | |- context [add ?a ?b] =>
      destruct (elementwise_same_shape Qcplus a b) as (r & Hadd & Hr & Hrget)
  end.
  { unfold shape. cbn [transpose021 d0 d1 d2]. congruence. }
  unfold add. rewrite Hadd. cbn [mbind res_bind].
  exists (transpose021 r),
         (_DLinearModule.new_Linear seq_len seq_len (sv 0)),
         (_DLinearModule.new_Linear seq_len seq_len (tv 0)).
  repeat (split; [reflexivity|]).
  unfold shape in Hr. cbn [transpose021 d0 d1 d2] in Hr, Hrget.
  injection Hr as R0 R1 R2.
  split.
  { unfold shape. cbn [transpose021 d0 d1 d2]. congruence. }
  intros b l c Hb Hl Hc. cbn [transpose021 get].
  rewrite Hrget by lia. cbn [get]. reflexivity.
Qed.

(** ** More on the scorer *)

Lemma Qc_square_nonneg (d : Qc) : (0 <= d * d)%Qc.
Proof.
  destruct (Qclt_le_dec d 0) as [Hneg|Hpos].
  - replace (d * d)%Qc with ((- d) * (- d))%Qc by ring.
    assert (0 <= - d)%Qc as H.
    { replace 0%Qc with (- 0)%Qc by ring.
      apply Qcopp_le_compat, Qclt_le_weak. assumption. }
    apply Qcmult_nonneg_nonneg; assumption.
  - apply Qcmult_nonneg_nonneg; assumption.
Qed.

Lemma sumn_zero_terms (n : nat) (f : nat -> Qc) :
  (forall i, i < n -> (0 <= f i)%Qc) -> sumn n f = 0%Qc ->
  forall i, i < n -> f i = 0%Qc.
Proof.
  induction n as [|n IH]; intros Hnn Hsum i Hi; [lia|].
  cbn [sumn] in Hsum.
  assert (0 <= sumn n f)%Qc as Hs by (apply sumn_nonneg; intros; apply Hnn; lia).
  assert (0 <= f n)%Qc as Hf by (apply Hnn; lia).
  assert (sumn n f = 0%Qc) as Hs0.
  { apply Qcle_antisym; [|assumption]. rewrite <- Hsum.
    rewrite <- (Qcplus_0_r (sumn n f)) at 1.
    apply Qcplus_le_compat; [apply Qcle_refl | assumption]. }
  destruct (decide (i = n)) as [->|Hne].
  - rewrite Hs0 in Hsum. rewrite <- Hsum. ring.
  - apply IH; [intros; apply Hnn; lia | assumption | lia].
Qed.

(** The scorer on two tensors of one shape with at least one channel. *)
Lemma get_loss_same_shape (y_pred y_true : T3) :
  shape y_pred = shape y_true -> 0 < d2 y_pred ->
  exists score,
    DLinear_AD._get_loss y_pred y_true = Ok score /\
    shape2 score = (d0 y_pred, d1 y_pred) /\
    forall b l, b < d0 y_pred -> l < d1 y_pred ->
      get2 score b l =
      (sumn (d2 y_pred)
         (fun c => (get y_true b l c - get y_pred b l c)
                   * (get y_true b l c - get y_pred b l c))
       / Qc_of_nat (d2 y_pred))%Qc.
Proof.
  intros Hshape HC.
  destruct (elementwise_same_shape Qcminus y_true y_pred (eq_sym Hshape))
    as (d & Hsub & Hd & Hget).
  unfold shape in Hshape, Hd.
  injection Hshape as E0 E1 E2. injection Hd as F0 F1 F2.
  unfold DLinear_AD._get_loss, mse_loss_none, sub. rewrite Hsub.
  cbn [mbind res_bind]. unfold mean_last.
  rewrite (bool_decide_eq_true_2 (0 < d2 (square d)))
    by (cbn [square d2]; lia).
  eexists. split; [reflexivity|].
  split.
  { unfold shape2. cbn [r0 r1 square d0 d1]. congruence. }
  intros b l Hb Hl. cbn [get2 square d2 get].
  rewrite F2, <- E2. f_equal.
  apply sumn_ext. intros c Hc. rewrite Hget by lia. reflexivity.
Qed.

(** X14. What the forward pass returns can be scored: for a constructed
    module and a window of the configured length and channel count, with at
    least one channel, _get_loss applied to the pair returned by forward
    yields one score per (batch entry, timestep). *)
Theorem forward_output_can_be_scored
    (c_in seq_len pred_len : nat) (individual : bool)
    (pretrain : option string)
    (paddle_load : string -> res (gmap string _DLinearModule.Param))
    (th_linear_fill : gmap string _DLinearModule.Param ->
                      gmap string _DLinearModule.Param)
    (sv tv : nat -> _DLinearModule.values) (X : _DLinearModule.batch) :
  let x := _DLinearModule.observed_cov_numeric X in
  d1 x = seq_len -> 1 <= seq_len -> d2 x = c_in -> 1 <= c_in ->
  readable pretrain paddle_load ->
  exists self y_pred y_true score,
    _DLinearModule.__init__ c_in seq_len pred_len individual pretrain
      paddle_load th_linear_fill sv tv = Ok self /\
    _DLinearModule.forward self X = Ok (y_pred, y_true) /\
    DLinear_AD._get_loss y_pred y_true = Ok score /\
    shape2 score = (d0 x, d1 x).
Proof.
  intros x HL Hpos HC Hchan Hread. subst x.
  destruct (series_decomp_forward_ok 25 (_DLinearModule.observed_cov_numeric X))
    as (s & t & Hdec & _ & Hs & Ht & _); [lia | reflexivity | lia |].
  destruct (init_ok c_in seq_len pred_len individual pretrain paddle_load
              th_linear_fill sv tv Hpos Hread) as (sv0 & tv0 & Hinit).
  destruct (forward_core c_in seq_len individual sv0 tv0 X s t HL HC Hdec Hs Ht)
    as (out & Hfw & Hshape & _).
  destruct (get_loss_same_shape out (_DLinearModule.observed_cov_numeric X))
    as (score & Hrun & Hsc & _).
  { rewrite Hshape. unfold shape. congruence. }
  { unfold shape in Hshape. injection Hshape as E0 E1 E2. lia. }
  exists (built c_in seq_len individual sv0 tv0), out,
         (_DLinearModule.observed_cov_numeric X), score.
  split; [exact Hinit|]. split; [exact Hfw|]. split; [exact Hrun|].
  rewrite Hsc. unfold shape in Hshape. injection Hshape as E0 E1 E2. congruence.
Qed.

(** X15. The anomaly score is never negative, and it is zero at a (batch
    entry, timestep) exactly when prediction and ground truth agree on every
    channel there. *)
Theorem get_loss_nonnegative_and_zero_iff_equal (y_pred y_true : T3) :
  shape y_pred = shape y_true -> 0 < d2 y_pred ->
  exists score,
    DLinear_AD._get_loss y_pred y_true = Ok score /\
    forall b l, b < d0 y_pred -> l < d1 y_pred ->
      (0 <= get2 score b l)%Qc /\
      (get2 score b l = 0%Qc <->
       forall c, c < d2 y_pred -> get y_pred b l c = get y_true b l c).
Proof.
  intros Hshape HC.
  destruct (get_loss_same_shape y_pred y_true Hshape HC)
    as (score & Hrun & _ & Hget).
  exists score. split; [exact Hrun|].
  intros b l Hb Hl. rewrite (Hget b l Hb Hl).
  set (f := fun c => ((get y_true b l c - get y_pred b l c)
                      * (get y_true b l c - get y_pred b l c))%Qc).
  assert (forall c, c < d2 y_pred -> (0 <= f c)%Qc) as Hnn
    by (intros c _; apply Qc_square_nonneg).
  pose proof (Qc_of_nat_pos _ HC) as Hpos.
  pose proof (Qc_of_nat_nonzero _ HC) as Hnz.
  split; [|split].
  - unfold Qcdiv. apply Qcmult_nonneg_nonneg; [apply sumn_nonneg; assumption|].
    apply Qclt_le_weak, Qcinv_pos. assumption.
  - intros Hzero c Hc.
    assert (sumn (d2 y_pred) f = 0%Qc) as Hsum.
    { unfold Qcdiv in Hzero. apply Qcmult_integral in Hzero as [H|H];
        [exact H|].
      exfalso. pose proof (Qcinv_pos _ Hpos) as Hi. rewrite H in Hi.
      apply Qclt_not_le in Hi. apply Hi, Qcle_refl. }
    pose proof (sumn_zero_terms _ f Hnn Hsum c Hc) as Hc0. unfold f in Hc0.
    apply Qcmult_integral in Hc0.
    assert (get y_true b l c - get y_pred b l c = 0)%Qc as Hd by tauto.
    rewrite <- (Qcplus_0_l (get y_pred b l c)), <- Hd. ring.
  - intros Heq.
    rewrite (sumn_ext _ _ (fun _ => 0%Qc)).
    + rewrite sumn_const. field. assumption.
    + intros c Hc. unfold f. rewrite (Heq c Hc). ring.
Qed.

(** X16. The anomaly score of two tensors of one shape, with at least one
    channel, does not depend on which of the two is called the prediction. *)
Theorem get_loss_is_symmetric (y_pred y_true : T3) :
  shape y_pred = shape y_true -> 0 < d2 y_pred ->
  exists score score',
    DLinear_AD._get_loss y_pred y_true = Ok score /\
    DLinear_AD._get_loss y_true y_pred = Ok score' /\
    shape2 score' = shape2 score /\
    forall b l, b < d0 y_pred -> l < d1 y_pred ->
      get2 score' b l = get2 score b l.
Proof.
  intros Hshape HC.
  destruct (get_loss_same_shape y_pred y_true Hshape HC)
    as (score & Hrun & Hsc & Hget).
  destruct (get_loss_same_shape y_true y_pred (eq_sym Hshape))
    as (score' & Hrun' & Hsc' & Hget').
  { unfold shape in Hshape. injection Hshape as E0 E1 E2. lia. }
  unfold shape in Hshape. injection Hshape as E0 E1 E2.
  exists score, score'. split; [exact Hrun|]. split; [exact Hrun'|].
  split; [congruence|].
  intros b l Hb Hl. rewrite Hget by assumption. rewrite Hget' by lia.
  rewrite <- E2. f_equal. apply sumn_ext. intros c _. ring.
Qed.

(** X17. The scorer raises when the two tensors differ along an axis and
    neither has size 1 there (no broadcasting applies). *)
Theorem get_loss_rejects_incompatible_shapes (y_pred y_true : T3) :
  (d0 y_pred <> d0 y_true /\ d0 y_pred <> 1 /\ d0 y_true <> 1) \/
  (d1 y_pred <> d1 y_true /\ d1 y_pred <> 1 /\ d1 y_true <> 1) \/
  (d2 y_pred <> d2 y_true /\ d2 y_pred <> 1 /\ d2 y_true <> 1) ->
  DLinear_AD._get_loss y_pred y_true = Err InvalidArgument.
Proof.
  intros H.
  assert (forall m n, m <> n -> m <> 1 -> n <> 1 -> bdim n m = None) as Hb.
  { intros m n H1 H2 H3. unfold bdim.
    rewrite !bool_decide_eq_false_2 by congruence. reflexivity. }
  unfold DLinear_AD._get_loss, mse_loss_none, sub, elementwise.
  destruct H as [(H1 & H2 & H3)|[(H1 & H2 & H3)|(H1 & H2 & H3)]];
    rewrite (Hb _ _ H1 H2 H3);
    repeat (destruct (bdim _ _)); reflexivity.
Qed.

(** ** More on init_weight *)

(** X18. Loading keeps the model's parameter names and shapes: the loaded
    dictionary has exactly the names of the state dictionary (a name that
    only the pretrained mapping has is never added), every parameter keeps
    its shape, and the number reported is at most the total. *)
Theorem init_weight_keeps_names_and_shapes
    (path : string) (paddle_load : string -> res (gmap string _DLinearModule.Param))
    (th_linear_fill : gmap string _DLinearModule.Param ->
                      gmap string _DLinearModule.Param)
    (state_dict para : gmap string _DLinearModule.Param) :
  path <> EmptyString -> paddle_load path = Ok para ->
  exists loaded warnings n,
    _DLinearModule.init_weight (Some path) paddle_load th_linear_fill state_dict
      = Ok (loaded, warnings ++ [_DLinearModule.Info_loaded n (size state_dict)]) /\
    dom loaded = dom state_dict /\
    (forall k q, state_dict !! k = Some q ->
       exists q', loaded !! k = Some q' /\
                  _DLinearModule.p_shape q' = _DLinearModule.p_shape q) /\
    n <= size state_dict.
Proof.
  intros Hpath Hload.
  destruct (init_weight_run path paddle_load th_linear_fill state_dict para
              Hpath Hload) as (loaded & warnings & n & Hrun & Hlook & Hn).
  exists loaded, warnings, n. split; [exact Hrun|].
  split; [|split].
  - apply set_eq. intros k. rewrite !elem_of_dom, Hlook.
    unfold _DLinearModule.can_load.
    destruct (para !! k) as [p|]; [|reflexivity].
    destruct (state_dict !! k) as [q|]; [|reflexivity].
    destruct (bool_decide _); split; eauto.
  - intros k q Hq. rewrite Hlook. unfold _DLinearModule.can_load. rewrite Hq.
    destruct (para !! k) as [p|]; [|eauto].
    case_bool_decide; eauto.
  - rewrite Hn. apply map_size_filter.
Qed.

(** X19. Loading the model's own state dictionary is a round trip: the
    dictionary is unchanged and every parameter is reported as loaded. *)
Theorem init_weight_own_state_round_trip
    (path : string) (paddle_load : string -> res (gmap string _DLinearModule.Param))
    (th_linear_fill : gmap string _DLinearModule.Param ->
                      gmap string _DLinearModule.Param)
    (state_dict : gmap string _DLinearModule.Param) :
  path <> EmptyString -> paddle_load path = Ok state_dict ->
  exists warnings,
    _DLinearModule.init_weight (Some path) paddle_load th_linear_fill state_dict
    = Ok (state_dict,
          warnings ++ [_DLinearModule.Info_loaded (size state_dict)
                                                  (size state_dict)]).
Proof.
  intros Hpath Hload.
  destruct (init_weight_run path paddle_load th_linear_fill state_dict state_dict
              Hpath Hload) as (loaded & warnings & n & Hrun & Hlook & Hn).
  exists warnings.
  assert (loaded = state_dict) as ->.
  { apply map_eq. intros k. rewrite Hlook.
    destruct (_DLinearModule.can_load _ _ _); reflexivity. }
  assert (n = size state_dict) as ->; [|exact Hrun].
  rewrite Hn. f_equal. apply map_filter_id.
  intros k q Hq. cbn [fst]. unfold _DLinearModule.can_load. rewrite Hq.
  apply bool_decide_eq_true_2. reflexivity.
Qed.

(** X20. When no name of the pretrained mapping is in the model with the
    same shape (for instance an empty mapping), nothing is loaded: the
    dictionary is unchanged and the number reported is 0. *)
Theorem init_weight_nothing_to_load
    (path : string) (paddle_load : string -> res (gmap string _DLinearModule.Param))
    (th_linear_fill : gmap string _DLinearModule.Param ->
                      gmap string _DLinearModule.Param)
    (state_dict para : gmap string _DLinearModule.Param) :
  path <> EmptyString -> paddle_load path = Ok para ->
  (forall k p q, para !! k = Some p -> state_dict !! k = Some q ->
     _DLinearModule.p_shape p <> _DLinearModule.p_shape q) ->
  exists warnings,
    _DLinearModule.init_weight (Some path) paddle_load th_linear_fill state_dict
    = Ok (state_dict,
          warnings ++ [_DLinearModule.Info_loaded 0 (size state_dict)]).
Proof.
  intros Hpath Hload Hno.
  destruct (init_weight_run path paddle_load th_linear_fill state_dict para
              Hpath Hload) as (loaded & warnings & n & Hrun & Hlook & Hn).
  assert (forall k, _DLinearModule.can_load para state_dict k = false) as Hc.
  { intros k. unfold _DLinearModule.can_load.
    destruct (para !! k) as [p|] eqn:Hp; [|reflexivity].
    destruct (state_dict !! k) as [q|] eqn:Hq; [|reflexivity].
    apply bool_decide_eq_false_2. eauto. }
  exists warnings.
  assert (loaded = state_dict) as ->.
  { apply map_eq. intros k. rewrite Hlook, Hc. reflexivity. }
  assert (n = 0) as ->; [|exact Hrun].
  rewrite Hn.
  assert (filter (fun kq : string * _DLinearModule.Param =>
                    _DLinearModule.can_load para state_dict kq.1 = true)
                 state_dict = ∅) as ->; [|apply map_size_empty].
  apply map_eq. intros k. rewrite lookup_empty.
  apply map_lookup_filter_None_2. right. intros q _. cbn [fst].
  rewrite Hc. discriminate.
Qed.

(** X21. Loading is idempotent: loading the same pretrained mapping into
    the dictionary a first load produced changes nothing and reports the
    same number. *)
Theorem init_weight_is_idempotent
    (path : string) (paddle_load : string -> res (gmap string _DLinearModule.Param))
    (th_linear_fill : gmap string _DLinearModule.Param ->
                      gmap string _DLinearModule.Param)
    (state_dict para : gmap string _DLinearModule.Param) :
  path <> EmptyString -> paddle_load path = Ok para ->
  exists loaded warnings warnings' n,
    _DLinearModule.init_weight (Some path) paddle_load th_linear_fill state_dict
      = Ok (loaded, warnings ++ [_DLinearModule.Info_loaded n (size state_dict)]) /\
    _DLinearModule.init_weight (Some path) paddle_load th_linear_fill loaded
      = Ok (loaded, warnings' ++ [_DLinearModule.Info_loaded n (size state_dict)]).
Proof.
  intros Hpath Hload.
  destruct (init_weight_run path paddle_load th_linear_fill state_dict para
              Hpath Hload) as (loaded & warnings & n & Hrun & Hlook & Hn).
  destruct (init_weight_run path paddle_load th_linear_fill loaded para
              Hpath Hload) as (loaded' & warnings' & n' & Hrun' & Hlook' & Hn').
  assert (forall k, _DLinearModule.can_load para loaded k
                    = _DLinearModule.can_load para state_dict k) as Hc.
  { intros k. unfold _DLinearModule.can_load at 1. rewrite Hlook.
    unfold _DLinearModule.can_load.
    destruct (para !! k) as [p|] eqn:Hp; [|reflexivity].
    destruct (state_dict !! k) as [q|] eqn:Hq; [|reflexivity].
    case_bool_decide as Hs; [|rewrite bool_decide_eq_false_2; done].
    rewrite bool_decide_eq_true_2; done. }
  assert (loaded' = loaded) as ->.
  { apply map_eq. intros k. rewrite Hlook', Hc, Hlook.
    destruct (_DLinearModule.can_load para state_dict k); reflexivity. }
  assert (size loaded = size state_dict) as Hsize.
  { rewrite <- !size_dom. f_equal. apply set_eq. intros k.
    rewrite !elem_of_dom, Hlook. unfold _DLinearModule.can_load.
    destruct (para !! k) as [p|]; [|reflexivity].
    destruct (state_dict !! k) as [q|]; [|reflexivity].
    destruct (bool_decide _); split; eauto. }
  assert (n' = n) as ->.
  { rewrite Hn', Hn.
    rewrite <- !size_dom. f_equal. apply set_eq. intros k.
    rewrite !elem_of_dom. unfold is_Some.
    setoid_rewrite map_lookup_filter_Some. cbn [fst].
    rewrite Hc. split.
    - intros (q & Hq & Hk). pose proof Hk as Hk'.
      unfold _DLinearModule.can_load in Hk'.
      destruct (para !! k); [|discriminate].
      destruct (state_dict !! k) as [q0|]; [|discriminate].
      exists q0. split; [reflexivity | exact Hk].
    - intros (q & Hq & Hk).
      assert (is_Some (loaded !! k)) as [q' Hq'].
      { rewrite Hlook, Hk. unfold _DLinearModule.can_load in Hk.
        destruct (para !! k); [eauto|discriminate]. }
      exists q'. split; [exact Hq' | exact Hk]. }
  exists loaded, warnings, warnings', n.
  split; [exact Hrun|]. rewrite <- Hsize. exact Hrun'.
Qed.

(** ** More on predict *)

(** X22. predict returns one label per score, and every label is 0 or 1. *)
Theorem predict_labels_are_binary `{Base : DLinear_AD.AnomalyBaseModel}
    (self : DLinear_AD.t) (tsdataset : DLinear_AD.TSDataset) (labels : list Z) :
  DLinear_AD.predict self tsdataset = Ok labels ->
  (forall v, v ∈ labels -> v = 0%Z \/ v = 1%Z) /\
  exists dl chunks,
    DLinear_AD._init_predict_dataloader self tsdataset
      ((Z.of_nat (r0 (DLinear_AD.observed_cov tsdataset)) - 1)%Z,
       (Z.of_nat (r0 (DLinear_AD.observed_cov tsdataset)) - 1)%Z) = Ok dl /\
    DLinear_AD._get_anomaly_score self dl = Ok chunks /\
    length labels = sum_list (map length chunks).
Proof.
  intros H.
  destruct (predict_ok self tsdataset labels H)
    as (dl & chunks & threshold & Hdl & Hsc & Hth & ->).
  split.
  - intros v Hv. apply list_elem_of_fmap in Hv as (s & -> & _).
    case_bool_decide; auto.
  - exists dl, chunks. split; [exact Hdl|]. split; [exact Hsc|].
    rewrite length_map. clear. induction chunks as [|c cs IH]; [reflexivity|].
    cbn [concat map sum_list_with]. rewrite length_app, IH. reflexivity.
Qed.

(** X23. predict raises when the scorer returns no batch at all
    (ValueError), and, when there are scores, when the model has no
    threshold because it was neither given one nor fitted (TypeError). *)
Theorem predict_raises_without_scores_or_threshold
    `{Base : DLinear_AD.AnomalyBaseModel}
    (self : DLinear_AD.t) (tsdataset : DLinear_AD.TSDataset)
    (dl : DLinear_AD.DataLoader) (chunks : list (list Qc)) :
  DLinear_AD._init_predict_dataloader self tsdataset
    ((Z.of_nat (r0 (DLinear_AD.observed_cov tsdataset)) - 1)%Z,
     (Z.of_nat (r0 (DLinear_AD.observed_cov tsdataset)) - 1)%Z) = Ok dl ->
  DLinear_AD._get_anomaly_score self dl = Ok chunks ->
  (chunks = [] -> DLinear_AD.predict self tsdataset = Err ValueError) /\
  (chunks <> [] -> DLinear_AD._threshold self = None ->
   DLinear_AD.predict self tsdataset = Err TypeError).
Proof.
  intros Hdl Hsc. unfold DLinear_AD.predict.
  rewrite Hdl. cbn [mbind res_bind]. rewrite Hsc. cbn [mbind res_bind].
  split.
  - intros ->. reflexivity.
  - intros Hne Hth. destruct chunks as [|c cs]; [congruence|].
    cbn [mbind res_bind]. rewrite Hth. reflexivity.
Qed.

(** X24. Raising the threshold never flags more timesteps: if the inherited
    loader and scorer do not depend on the stored threshold, predict with a
    threshold t' >= t returns labels that are pointwise at most those
    returned with t. *)
Theorem predict_is_monotone_in_threshold `{Base : DLinear_AD.AnomalyBaseModel}
    (self : DLinear_AD.t) (tsdataset : DLinear_AD.TSDataset)
    (t t' : Qc) (labels : list Z) :
  (forall bd,
     DLinear_AD._init_predict_dataloader
       (DLinear_AD.set_threshold self (Some t')) tsdataset bd
     = DLinear_AD._init_predict_dataloader self tsdataset bd) ->
  (forall dl,
     DLinear_AD._get_anomaly_score (DLinear_AD.set_threshold self (Some t')) dl
     = DLinear_AD._get_anomaly_score self dl) ->
  DLinear_AD._threshold self = Some t -> (t <= t')%Qc ->
  DLinear_AD.predict self tsdataset = Ok labels ->
  exists labels',
    DLinear_AD.predict (DLinear_AD.set_threshold self (Some t')) tsdataset
      = Ok labels' /\
    Forall2 Z.le labels' labels.
Proof.
  intros Hdl' Hsc' Hth Hle H.
  destruct (predict_ok self tsdataset labels H)
    as (dl & chunks & threshold & Hdl & Hsc & Hth' & ->).
  rewrite Hth in Hth'. injection Hth' as <-.
  exists (map (fun s => if bool_decide (t' <= s)%Qc then 1%Z else 0%Z)
              (concat chunks)).
  split.
  - unfold DLinear_AD.predict in *. rewrite Hdl', Hdl in *.
    cbn [mbind res_bind] in *. rewrite Hsc', Hsc in *.
    destruct chunks as [|c cs]; cbn [mbind res_bind] in *; [discriminate H|].
    cbn [DLinear_AD._threshold DLinear_AD.set_threshold]. f_equal.
    apply map_ext. intros s. destruct (bool_decide _); reflexivity.
  - apply Forall2_fmap, Forall_Forall2_diag, Forall_forall. intros s _.
    cbn beta. case_bool_decide as E'; case_bool_decide as E; try lia.
    exfalso. apply E. eapply Qcle_trans; eassumption.
Qed.

(** ** More on fit *)

(** What a completed fit has done about the threshold. *)
Lemma fit_ok_threshold `{Base : DLinear_AD.AnomalyBaseModel}
    (self : DLinear_AD.t) (train : DLinear_AD.TSDataset)
    (valid : option DLinear_AD.TSDataset) (to_static_train use_amp : bool)
    (amp_level : string) (self' : DLinear_AD.t)
    (calls : list DLinear_AD.event) :
  (forall s a b c s', DLinear_AD._fit s a b c = Ok s' ->
     DLinear_AD._threshold s' = DLinear_AD._threshold s) ->
  DLinear_AD.fit self train valid to_static_train use_amp amp_level
    = Ok (self', calls) ->
  match DLinear_AD._threshold self with
  | Some user =>
      DLinear_AD._threshold self' = Some user /\ calls = [DLinear_AD.Train]
  | None => exists v : Qc, DLinear_AD._threshold self' = Some v
  end.
Proof.
  intros Hfit H. unfold DLinear_AD.fit in H.
  step_ok H. step_ok H. step_ok H. step_ok H. step_ok H.
  pose proof (Hfit _ _ _ _ _ E2) as Hth. cbn in Hth.
  step_ok H.
  - injection H as <- <-. rewrite <- Hth. rewrite E3. auto.
  - step_ok H. step_ok H. step_ok H.
    destruct a2 as [[th s'] calls'].
    injection H as <- <-. rewrite <- Hth. eexists. reflexivity.
Qed.

(** X25. Fitting again does not recalibrate: once a fit has completed, a
    further fit (on any data) trains but leaves the threshold of the first
    fit in place and makes no calibration call. *)
Theorem refit_keeps_first_threshold `{Base : DLinear_AD.AnomalyBaseModel}
    (self : DLinear_AD.t) (train train2 : DLinear_AD.TSDataset)
    (valid valid2 : option DLinear_AD.TSDataset)
    (st st2 amp amp2 : bool) (level level2 : string)
    (fitted refitted : DLinear_AD.t) (calls calls2 : list DLinear_AD.event) :
  (forall s a b c s', DLinear_AD._fit s a b c = Ok s' ->
     DLinear_AD._threshold s' = DLinear_AD._threshold s) ->
  DLinear_AD.fit self train valid st amp level = Ok (fitted, calls) ->
  DLinear_AD.fit fitted train2 valid2 st2 amp2 level2 = Ok (refitted, calls2) ->
  DLinear_AD._threshold refitted = DLinear_AD._threshold fitted /\
  calls2 = [DLinear_AD.Train].
Proof.
  intros Hfit H1 H2.
  pose proof (fit_ok_threshold _ _ _ _ _ _ _ _ Hfit H1) as P1.
  pose proof (fit_ok_threshold _ _ _ _ _ _ _ _ Hfit H2) as P2.
  assert (exists v, DLinear_AD._threshold fitted = Some v) as [v Hv].
  { destruct (DLinear_AD._threshold self); [destruct P1; eauto | exact P1]. }
  rewrite Hv in P2. destruct P2 as [P2 ->]. rewrite P2, Hv. auto.
Qed.

(** X26. The channel count the network is built with is the number of
    columns of the training data: after [_update_fit_params], _init_network
    returns a module that accepts every window of in_chunk_len >= 1
    timesteps over that many channels and returns a tensor of the same
    shape.  On a detector whose fit parameters are not set, as it is after
    construction, _init_network raises TypeError. *)
Theorem init_network_fits_training_data
    (self : DLinear_AD.t) (train : DLinear_AD.TSDataset)
    (valid : option DLinear_AD.TSDataset)
    (paddle_load : string -> res (gmap string _DLinearModule.Param))
    (th_linear_fill : gmap string _DLinearModule.Param ->
                      gmap string _DLinearModule.Param)
    (sv tv : nat -> _DLinearModule.values) (X : _DLinearModule.batch) :
  let x := _DLinearModule.observed_cov_numeric X in
  let prepared :=
    DLinear_AD.set_fit_params self
      (DLinear_AD._update_fit_params self train valid) in
  d1 x = DLinear_AD._in_chunk_len self -> 1 <= DLinear_AD._in_chunk_len self ->
  d2 x = r1 (DLinear_AD.observed_cov train) ->
  (exists net out,
     DLinear_AD._init_network prepared paddle_load th_linear_fill sv tv
       = Ok net /\
     _DLinearModule.channels net = r1 (DLinear_AD.observed_cov train) /\
     _DLinearModule.seq_len net = DLinear_AD._in_chunk_len self /\
     _DLinearModule.individual net = DLinear_AD.individual self /\
     _DLinearModule.forward net X = Ok (out, x) /\
     shape out = shape x) /\
  (DLinear_AD._fit_params self = None ->
   DLinear_AD._init_network self paddle_load th_linear_fill sv tv
   = Err TypeError).
Proof.
  intros x prepared HL Hpos HC. subst x prepared. split.
  - destruct (series_decomp_forward_ok 25 (_DLinearModule.observed_cov_numeric X))
      as (s & t & Hdec & _ & Hs & Ht & _); [lia | reflexivity | lia |].
    destruct (init_ok (r1 (DLinear_AD.observed_cov train))
                (DLinear_AD._in_chunk_len self) (DLinear_AD._in_chunk_len self)
                (DLinear_AD.individual self) None paddle_load th_linear_fill
                sv tv Hpos) as (sv0 & tv0 & Hinit).
    { intros path Hpath. discriminate Hpath. }
    destruct (forward_core (r1 (DLinear_AD.observed_cov train))
                (DLinear_AD._in_chunk_len self) (DLinear_AD.individual self)
                sv0 tv0 X s t HL HC Hdec Hs Ht) as (out & Hfw & Hshape & _).
    eexists _, out. split.
    { unfold DLinear_AD._init_network, DLinear_AD._update_fit_params.
      cbn [DLinear_AD.set_fit_params DLinear_AD._fit_params
           DLinear_AD._in_chunk_len DLinear_AD.individual].
      exact Hinit. }
    repeat (split; [reflexivity|]). split; [exact Hfw|].
    rewrite Hshape. unfold shape. congruence.
  - intros Hnone. unfold DLinear_AD._init_network. rewrite Hnone. reflexivity.
Qed.

(** X27. When the loaders built for calibration contain no train loader,
    fit raises ValueError, after the training loop has already run. *)
Theorem fit_raises_without_calibration_loader
    `{Base : DLinear_AD.AnomalyBaseModel}
    (self trained : DLinear_AD.t) (train : DLinear_AD.TSDataset)
    (valid : option DLinear_AD.TSDataset) (to_static_train use_amp : bool)
    (amp_level : string)
    (a b vdl : option DLinear_AD.DataLoader) :
  let prepared :=
    DLinear_AD.set_fit_params
      (DLinear_AD.set_amp_level (DLinear_AD.set_use_amp self use_amp) amp_level)
      (DLinear_AD._update_fit_params self train valid) in
  DLinear_AD._check_tsdataset train = Ok () ->
  match valid with
  | Some v => DLinear_AD._check_tsdataset v = Ok ()
  | None => True
  end ->
  DLinear_AD._init_fit_dataloaders prepared train valid None = Ok (a, b) ->
  DLinear_AD._fit prepared a b to_static_train = Ok trained ->
  DLinear_AD._threshold trained = None ->
  DLinear_AD._init_fit_dataloaders trained train valid (Some false)
    = Ok (None, vdl) ->
  DLinear_AD.fit self train valid to_static_train use_amp amp_level
    = Err ValueError.
Proof.
  intros prepared Hc Hv Hl Hf Hth Hl2. subst prepared.
  unfold DLinear_AD.fit. rewrite Hc. cbn [mbind res_bind].
  destruct valid as [v|]; [rewrite Hv|]; cbn [mbind res_bind];
    unfold DLinear_AD._update_fit_params in *;
    rewrite Hl; cbn [mbind res_bind]; rewrite Hf; cbn [mbind res_bind];
    rewrite Hth, Hl2; reflexivity.
Qed.

(** ** Construction and use of the smoother *)

(** X28. A kernel size that is zero or negative is accepted by the
    constructor and only rejected when the smoother is applied: forward
    then raises, whatever the window. *)
Theorem moving_avg_nonpositive_kernel_raises_at_forward
    (kernel_size stride : Z) (x : T3) :
  (kernel_size <= 0)%Z ->
  exists self,
    moving_avg.__init__ kernel_size stride = Ok self /\
    moving_avg.forward self x = Err InvalidArgument.
Proof.
  intros Hk. eexists. split; [reflexivity|].
  unfold moving_avg.forward, moving_avg.pad, tile1.
  cbn [moving_avg.kernel_size].
  assert ((kernel_size - 1) / 2 < 0)%Z as Hneg
    by (apply Z.div_lt_upper_bound; lia).
  rewrite bool_decide_eq_true_2 by lia. reflexivity.
Qed.

(** ** The further properties at concrete inputs *)

Ltac by_computation :=
  first [ apply Qc_is_canon; vm_compute; reflexivity
        | match goal with
          | |- ?P => apply (@bool_decide_eq_true_1 P _); vm_compute; reflexivity
          end ].

Lemma centred_mean_on_ramp :
  exists y,
    moving_avg.forward (moving_avg.mk 3 (mkAvgPool1D 3 1)) ramp = Ok y /\
    get y 0 1 0
    = (sumn 3 (fun j => get ramp 0 (1 - 1 + j) 0) / Qc_of_nat 3)%Qc.
Proof.
  destruct (moving_avg_is_centred_mean_with_clamped_ends 3 ramp)
    as (y & Hrun & _ & Hmid).
  - lia.
  - reflexivity.
  - simpl. lia.
  - exists y. split; [exact Hrun|]. apply Hmid; vm_compute; lia.
Defined.

Lemma smooth_flat :
  exists y,
    moving_avg.forward (moving_avg.mk 3 (mkAvgPool1D 3 1)) flat = Ok y /\
    get y 0 2 0 = q 5.
Proof.
  destruct (moving_avg_fixes_constant_sequences 3 flat) as (y & Hrun & _ & Hget).
  - lia.
  - reflexivity.
  - simpl. lia.
  - intros b l c Hl. destruct l as [|[|[|l]]];
      first [reflexivity | simpl in Hl; lia].
  - exists y. split; [exact Hrun|]. rewrite Hget by (simpl; lia). reflexivity.
Defined.

Lemma smooth_pair_channel_0 :
  exists y y',
    moving_avg.forward (moving_avg.mk 3 (mkAvgPool1D 3 1)) pair = Ok y /\
    moving_avg.forward (moving_avg.mk 3 (mkAvgPool1D 3 1)) pair_other = Ok y' /\
    get y' 0 1 0 = get y 0 1 0.
Proof.
  destruct (moving_avg_is_per_series 3 pair pair_other 0 0)
    as (y & y' & Hrun & Hrun' & Hsame).
  - lia.
  - reflexivity.
  - simpl. lia.
  - reflexivity.
  - intros l Hl. destruct l as [|[|[|l]]];
      first [reflexivity | simpl in Hl; lia].
  - exists y, y'. split; [exact Hrun|]. split; [exact Hrun'|]. apply Hsame.
Defined.

Lemma smooth_combined :
  exists y y' yz,
    moving_avg.forward (moving_avg.mk 3 (mkAvgPool1D 3 1)) ramp = Ok y /\
    moving_avg.forward (moving_avg.mk 3 (mkAvgPool1D 3 1)) flat = Ok y' /\
    moving_avg.forward (moving_avg.mk 3 (mkAvgPool1D 3 1)) combined = Ok yz /\
    get yz 0 1 0 = (q 2 * get y 0 1 0 + get y' 0 1 0)%Qc.
Proof.
  destruct (moving_avg_is_linear 3 (q 2) ramp flat combined 0 0)
    as (y & y' & yz & H1 & H2 & H3 & Hlin).
  - lia.
  - reflexivity.
  - simpl. lia.
  - reflexivity.
  - reflexivity.
  - intros l Hl. destruct l as [|[|[|l]]];
      first [by_computation | simpl in Hl; lia].
  - exists y, y', yz. repeat (split; [assumption|]). apply Hlin.
Defined.

Lemma smooth_ramp_bounds :
  exists y,
    moving_avg.forward (moving_avg.mk 3 (mkAvgPool1D 3 1)) ramp = Ok y /\
    (q 1 <= get y 0 0 0)%Qc /\ (get y 0 0 0 <= q 4)%Qc.
Proof.
  destruct (moving_avg_stays_within_bounds 3 ramp 0 0 (q 1) (q 4))
    as (y & Hrun & Hb).
  - lia.
  - reflexivity.
  - simpl. lia.
  - intros l Hl. destruct l as [|[|[|l]]];
      first [split; by_computation | simpl in Hl; lia].
  - exists y. split; [exact Hrun|]. apply Hb.
Defined.

Lemma smooth_ramp_even_kernel :
  exists y,
    moving_avg.forward (moving_avg.mk 4 (mkAvgPool1D 4 1)) ramp = Ok y /\
    shape y = (1, 2, 1).
Proof.
  destruct (moving_avg_even_kernel_loses_one_step 4 ramp) as [_ Hlong].
  - lia.
  - reflexivity.
  - simpl. lia.
  - apply Hlong. simpl. lia.
Defined.

Lemma smooth_nonpositive_kernel :
  exists self,
    moving_avg.__init__ 0 1 = Ok self /\
    moving_avg.forward self ramp = Err InvalidArgument.
Proof.
  apply (moving_avg_nonpositive_kernel_raises_at_forward 0 1 ramp). lia.
Defined.

Lemma smooth_no_steps :
  moving_avg.forward (moving_avg.mk 3 (mkAvgPool1D 3 1)) no_steps
  = Err InvalidArgument.
Proof. apply moving_avg_rejects_empty_window. reflexivity. Defined.

Lemma decompose_flat :
  exists seasonal trend,
    series_decomp.forward
      (series_decomp.mk (moving_avg.mk 25 (mkAvgPool1D 25 1))) flat
      = Ok (seasonal, trend) /\
    get trend 0 1 0 = q 5 /\ get seasonal 0 1 0 = 0%Qc.
Proof.
  destruct (series_decomp_of_constant_sequence 25 flat)
    as (seasonal & trend & Hrun & Hget).
  - lia.
  - reflexivity.
  - simpl. lia.
  - intros b l c Hl. destruct l as [|[|[|l]]];
      first [reflexivity | simpl in Hl; lia].
  - exists seasonal, trend. split; [exact Hrun|].
    destruct (Hget 0 1 0) as [Ht Hs]; simpl; try lia.
    split; [exact Ht | exact Hs].
Defined.

Lemma decompose_ramp_even_kernel :
  series_decomp.forward
    (series_decomp.mk (moving_avg.mk 4 (mkAvgPool1D 4 1))) ramp
  = Err InvalidArgument.
Proof.
  apply series_decomp_even_kernel_raises.
  - lia.
  - reflexivity.
  - simpl. lia.
Defined.

Lemma forward_wrong_length_on_pair :
  exists self,
    _DLinearModule.__init__ 2 4 9 false None no_file keep sv tv = Ok self /\
    _DLinearModule.forward self (_DLinearModule.mkBatch pair)
    = Err InvalidArgument.
Proof.
  apply (forward_wrong_window_length_raises 2 4 9 false None no_file keep sv tv
           (_DLinearModule.mkBatch pair)).
  - lia.
  - simpl. lia.
  - simpl. lia.
  - left. reflexivity.
  - intros path Hpath. discriminate Hpath.
Defined.

Lemma forward_one_configured_channel_on_pair :
  exists self out,
    _DLinearModule.__init__ 1 3 9 true None no_file keep sv tv = Ok self /\
    _DLinearModule.forward self (_DLinearModule.mkBatch pair) = Ok (out, pair) /\
    get out 0 2 1 = 0%Qc.
Proof.
  destruct (forward_individual_leaves_extra_channels_zero 1 3 9 None no_file
              keep sv tv (_DLinearModule.mkBatch pair))
    as (self & out & Hinit & Hrun & _ & Hzero).
  - reflexivity.
  - lia.
  - simpl. lia.
  - intros path Hpath. discriminate Hpath.
  - exists self, out. split; [exact Hinit|]. split; [exact Hrun|].
    apply Hzero; simpl; lia.
Defined.

Lemma forward_three_configured_channels_on_pair :
  exists self,
    _DLinearModule.__init__ 3 3 9 true None no_file keep sv tv = Ok self /\
    _DLinearModule.forward self (_DLinearModule.mkBatch pair) = Err IndexError.
Proof.
  apply (forward_individual_missing_channel_raises 3 3 9 None no_file keep
           sv tv (_DLinearModule.mkBatch pair)).
  - reflexivity.
  - lia.
  - simpl. lia.
  - intros path Hpath. discriminate Hpath.
Defined.

(** Here the constructor is given a parameter file: [pretrained], which
    holds a weight for the shared seasonal layer and no bias. *)
Lemma forward_shared_seven_configured_channels_on_pair :
  exists self out,
    _DLinearModule.__init__ 7 3 9 false (Some "model.pdparams")
      (fun _ => Ok pretrained) keep sv tv = Ok self /\
    _DLinearModule.forward self (_DLinearModule.mkBatch pair) = Ok (out, pair) /\
    shape out = (1, 3, 2).
Proof.
  destruct (forward_shared_ignores_channel_count 7 3 9 (Some "model.pdparams")
              (fun _ => Ok pretrained) keep sv tv (_DLinearModule.mkBatch pair))
    as (self & s & t & out & ls & lt & Hinit & _ & _ & _ & _ & _ & Hrun
        & Hshape & _).
  - reflexivity.
  - lia.
  - intros path _ _. exists pretrained. reflexivity.
  - exists self, out. repeat split; assumption.
Defined.

Lemma score_forward_on_pair :
  exists self y_pred y_true score,
    _DLinearModule.__init__ 2 3 9 true None no_file keep sv tv = Ok self /\
    _DLinearModule.forward self (_DLinearModule.mkBatch pair)
      = Ok (y_pred, y_true) /\
    DLinear_AD._get_loss y_pred y_true = Ok score /\
    shape2 score = (1, 3).
Proof.
  apply (forward_output_can_be_scored 2 3 9 true None no_file keep sv tv
           (_DLinearModule.mkBatch pair)).
  - reflexivity.
  - lia.
  - reflexivity.
  - lia.
  - intros path Hpath. discriminate Hpath.
Defined.

Lemma score_is_nonnegative_on_example :
  exists score,
    DLinear_AD._get_loss y_pred y_true = Ok score /\
    (0 <= get2 score 0 1)%Qc.
Proof.
  destruct (get_loss_nonnegative_and_zero_iff_equal y_pred y_true)
    as (score & Hrun & Hprop).
  - reflexivity.
  - simpl. lia.
  - exists score. split; [exact Hrun|].
    destruct (Hprop 0 1) as [Hnn _]; simpl; try lia. exact Hnn.
Defined.

Lemma score_is_symmetric_on_example :
  exists score score',
    DLinear_AD._get_loss y_pred y_true = Ok score /\
    DLinear_AD._get_loss y_true y_pred = Ok score' /\
    get2 score' 0 0 = get2 score 0 0.
Proof.
  destruct (get_loss_is_symmetric y_pred y_true)
    as (score & score' & Hrun & Hrun' & _ & Hsame).
  - reflexivity.
  - simpl. lia.
  - exists score, score'. split; [exact Hrun|]. split; [exact Hrun'|].
    apply Hsame; simpl; lia.
Defined.

Lemma score_rejects_other_length :
  DLinear_AD._get_loss y_pred ramp = Err InvalidArgument.
Proof.
  apply get_loss_rejects_incompatible_shapes.
  right. left. simpl. lia.
Defined.

Lemma load_keeps_names_on_example :
  exists loaded warnings n,
    _DLinearModule.init_weight (Some "model.pdparams")
      (fun _ => Ok pretrained) (fun d => d) state_dict
      = Ok (loaded,
            warnings ++ [_DLinearModule.Info_loaded n (size state_dict)]) /\
    dom loaded = dom state_dict.
Proof.
  destruct (init_weight_keeps_names_and_shapes "model.pdparams"
              (fun _ => Ok pretrained) (fun d => d) state_dict pretrained)
    as (loaded & warnings & n & Hrun & Hdom & _).
  - discriminate.
  - reflexivity.
  - exists loaded, warnings, n. split; assumption.
Defined.

Lemma load_own_state_on_example :
  exists warnings,
    _DLinearModule.init_weight (Some "model.pdparams")
      (fun _ => Ok state_dict) (fun d => d) state_dict
    = Ok (state_dict,
          warnings ++ [_DLinearModule.Info_loaded (size state_dict)
                                                  (size state_dict)]).
Proof.
  apply (init_weight_own_state_round_trip "model.pdparams"
           (fun _ => Ok state_dict) (fun d => d) state_dict).
  - discriminate.
  - reflexivity.
Defined.

Lemma load_empty_mapping_on_example :
  exists warnings,
    _DLinearModule.init_weight (Some "model.pdparams")
      (fun _ => Ok ∅) (fun d => d) state_dict
    = Ok (state_dict,
          warnings ++ [_DLinearModule.Info_loaded 0 (size state_dict)]).
Proof.
  apply (init_weight_nothing_to_load "model.pdparams"
           (fun _ => Ok ∅) (fun d => d) state_dict ∅).
  - discriminate.
  - reflexivity.
  - intros k p q' Hp. rewrite lookup_empty in Hp. discriminate Hp.
Defined.

Lemma load_twice_on_example :
  exists loaded warnings warnings' n,
    _DLinearModule.init_weight (Some "model.pdparams")
      (fun _ => Ok pretrained) (fun d => d) state_dict
      = Ok (loaded,
            warnings ++ [_DLinearModule.Info_loaded n (size state_dict)]) /\
    _DLinearModule.init_weight (Some "model.pdparams")
      (fun _ => Ok pretrained) (fun d => d) loaded
      = Ok (loaded,
            warnings' ++ [_DLinearModule.Info_loaded n (size state_dict)]).
Proof.
  apply (init_weight_is_idempotent "model.pdparams"
           (fun _ => Ok pretrained) (fun d => d) state_dict pretrained).
  - discriminate.
  - reflexivity.
Defined.

Lemma predict_labels_on_example :
  DLinear_AD.predict (Base := base) trained series = Ok [1; 0; 1]%Z /\
  Forall (fun v => v = 0%Z \/ v = 1%Z) [1; 0; 1]%Z.
Proof.
  assert (DLinear_AD.predict (Base := base) trained series = Ok [1; 0; 1]%Z)
    as Hrun by (vm_compute; reflexivity).
  destruct (predict_labels_are_binary (Base := base) trained series
              [1; 0; 1]%Z Hrun) as [Hbin _].
  split; [exact Hrun|]. apply Forall_forall. exact Hbin.
Defined.

Lemma predict_without_threshold_on_example :
  DLinear_AD.predict (Base := base) unthresholded series = Err TypeError.
Proof.
  assert (DLinear_AD._get_anomaly_score (AnomalyBaseModel := base)
            unthresholded [window series] = Ok series_scores) as Hsc
    by (vm_compute; reflexivity).
  destruct (predict_raises_without_scores_or_threshold (Base := base)
              unthresholded series [window series] series_scores eq_refl Hsc)
    as [_ Hnone].
  apply Hnone; [|reflexivity].
  vm_compute. discriminate.
Defined.

Lemma predict_with_higher_threshold_on_example :
  exists labels',
    DLinear_AD.predict (Base := base)
      (DLinear_AD.set_threshold trained (Some (q 20))) series = Ok labels' /\
    Forall2 Z.le labels' [1; 0; 1]%Z.
Proof.
  assert (DLinear_AD.predict (Base := base) trained series = Ok [1; 0; 1]%Z)
    as Hrun by (vm_compute; reflexivity).
  apply (predict_is_monotone_in_threshold (Base := base) trained series
           (q 1) (q 20) [1; 0; 1]%Z).
  - intros bd. reflexivity.
  - intros dl. reflexivity.
  - reflexivity.
  - by_computation.
  - exact Hrun.
Defined.

Lemma refit_on_example :
  exists refitted,
    DLinear_AD.fit (Base := base) calibrated series None false true "O1"
      = Ok (refitted, [DLinear_AD.Train]) /\
    DLinear_AD._threshold refitted = DLinear_AD._threshold calibrated.
Proof.
  destruct (DLinear_AD.fit (Base := base) calibrated series None false true
              "O1") as [[refitted calls2]|e] eqn:E2;
    [|vm_compute in E2; discriminate E2].
  destruct (refit_keeps_first_threshold (Base := base) uncalibrated series
              series None None false false false true "O2" "O1"
              calibrated refitted
              [DLinear_AD.Train; DLinear_AD.Calibrate] calls2
              base_fit_keeps_threshold eq_refl E2) as [Hth ->].
  exists refitted. split; [reflexivity | exact Hth].
Defined.

Lemma init_network_on_example :
  exists net out,
    DLinear_AD._init_network
      (DLinear_AD.set_fit_params with_threshold
         (DLinear_AD._update_fit_params with_threshold series None))
      no_file keep zero_values zero_values = Ok net /\
    _DLinearModule.channels net = 1 /\
    _DLinearModule.forward net (window series)
      = Ok (out, _DLinearModule.observed_cov_numeric (window series)) /\
    DLinear_AD._init_network with_threshold no_file keep zero_values zero_values
      = Err TypeError.
Proof.
  destruct (init_network_fits_training_data with_threshold series None
              no_file keep zero_values zero_values (window series))
    as [(net & out & Hnet & Hch & _ & _ & Hrun & _) Hunset].
  - reflexivity.
  - simpl. lia.
  - reflexivity.
  - exists net, out. split; [exact Hnet|]. split; [exact Hch|].
    split; [exact Hrun|]. apply Hunset. reflexivity.
Defined.

Lemma fit_without_calibration_loader_on_example :
  DLinear_AD.fit (Base := base_without_calibration_loader) uncalibrated series
    None false false "O2" = Err ValueError.
Proof.
  apply (fit_raises_without_calibration_loader
           (Base := base_without_calibration_loader) uncalibrated after_training
           series None false false "O2" (Some [window series]) None None).
  - reflexivity.
  - exact I.
  - reflexivity.
  - reflexivity.
  - reflexivity.
  - reflexivity.
Defined.
